(** * coffeeShop: the drinks API of [backend/src/api.py]

    A shallow embedding of the Flask application: Python values that
    travel through the handlers (JSON data, [str] objects), the standard
    [json] codec the handlers and the model class call, the [Drink] table,
    the permission gate, the five route handlers and the error handlers,
    followed by the properties of the request-handling contract. *)

From Stdlib Require Import ZArith NArith List String Ascii Lia Bool.
From stdpp Require Import base option list gmap sorting.

Set Warnings "-register-all".
Local Open Scope N_scope.

(** ** Python strings

    A Python [str] is a sequence of Unicode code points.  Code points are
    kept as numbers so that the escaping rules of the [json] module, which
    are written in terms of [ord], read as in the library. *)

Abbreviation pystr := (list N).

(** A string literal of the source, as a [str]. *)
Definition lit (s : string) : pystr :=
  List.map N_of_ascii (list_ascii_of_string s).

Fixpoint str_eqb (a b : pystr) : bool :=
  match a, b with
  | [], [] => true
  | x :: a', y :: b' => (x =? y) && str_eqb a' b'
  | _, _ => false
  end.

(** [p] is an initial segment of [s]: returns what follows it. *)
Fixpoint strip_prefix (p s : pystr) : option pystr :=
  match p, s with
  | [], _ => Some s
  | a :: p', b :: s' => if a =? b then strip_prefix p' s' else None
  | _ :: _, [] => None
  end.

(** [sub in s] on two [str] objects: substring search. *)
Fixpoint str_contains (sub s : pystr) : bool :=
  match strip_prefix sub s with
  | Some _ => true
  | None => match s with
            | [] => false
            | _ :: s' => str_contains sub s'
            end
  end.

(** ** JSON data

    What [request.get_json()] hands to a handler and what [jsonify]
    receives: [None], [bool], [int], [str], [list] and [dict] (insertion
    ordered, hence an association list).  Numbers are the integers;
    floating-point numbers are outside the model. *)

Inductive json : Type :=
| JNull
| JBool (b : bool)
| JNum (n : Z)
| JStr (s : pystr)
| JArr (l : list json)
| JObj (kvs : list (pystr * json)).

(** [d.get(k)] on the association list of a [dict]. *)
Fixpoint dict_get (k : pystr) (kvs : list (pystr * json)) : option json :=
  match kvs with
  | [] => None
  | (k', v) :: rest => if str_eqb k k' then Some v else dict_get k rest
  end.

Definition dict_has (k : pystr) (kvs : list (pystr * json)) : bool :=
  match dict_get k kvs with Some _ => true | None => false end.

(** [d[k] = v]: replaces the value in place when the key exists, appends
    the pair otherwise. *)
Fixpoint dict_set (k : pystr) (v : json) (kvs : list (pystr * json))
  : list (pystr * json) :=
  match kvs with
  | [] => [(k, v)]
  | (k', v') :: rest =>
      if str_eqb k k' then (k', v) :: rest else (k', v') :: dict_set k v rest
  end.

(** [dict(pairs)]. *)
Definition dict_of_pairs (pairs : list (pystr * json)) : list (pystr * json) :=
  fold_left (fun d kv => dict_set (fst kv) (snd kv) d) pairs [].

(** ** [json.dumps]

    The encoder with its defaults: [ensure_ascii=True], separators
    [", "] and [": "]. *)

Definition hex_digit (d : N) : N := if d <? 10 then 48 + d else 87 + d.

(** ['{0:04x}'.format(n)] for [n < 0x10000]. *)
Definition hex4 (n : N) : pystr :=
  [ hex_digit (n / 4096 mod 16); hex_digit (n / 256 mod 16);
    hex_digit (n / 16 mod 16); hex_digit (n mod 16) ].

(** The replacement of one character in [py_encode_basestring_ascii]:
    the short escapes of [ESCAPE_DCT], the printable ASCII range kept as
    it is, [\uXXXX] below 0x10000 and a surrogate pair above. *)
Definition escape_char (c : N) : pystr :=
  if c =? 92 then [92; 92]
  else if c =? 34 then [92; 34]
  else if c =? 8 then [92; 98]
  else if c =? 12 then [92; 102]
  else if c =? 10 then [92; 110]
  else if c =? 13 then [92; 114]
  else if c =? 9 then [92; 116]
  else if (32 <=? c) && (c <=? 126) then [c]
  else if c <? 65536 then 92 :: 117 :: hex4 c
  else
    let n := c - 65536 in
    let s1 := N.lor 55296 (N.land (N.shiftr n 10) 1023) in
    let s2 := N.lor 56320 (N.land n 1023) in
    (92 :: 117 :: hex4 s1) ++ (92 :: 117 :: hex4 s2).

Definition escape (s : pystr) : pystr := List.concat (List.map escape_char s).

Definition encode_str (s : pystr) : pystr := 34 :: escape s ++ [34].

(** Decimal digits of a natural number, most significant first. *)
Fixpoint digits_fuel (fuel : nat) (n : N) (acc : pystr) : pystr :=
  match fuel with
  | O => acc
  | S f =>
      let acc' := (48 + n mod 10) :: acc in
      if n <? 10 then acc' else digits_fuel f (n / 10) acc'
  end.

Definition str_of_N (n : N) : pystr := digits_fuel (S (N.to_nat (N.log2 n))) n [].

(** [str(n)] for an [int]. *)
Definition str_of_Z (z : Z) : pystr :=
  match z with
  | Z0 => [48]
  | Zpos p => str_of_N (Npos p)
  | Zneg p => 45 :: str_of_N (Npos p)
  end.

(** [', '.join(parts)]. *)
Fixpoint join_comma (parts : list pystr) : pystr :=
  match parts with
  | [] => []
  | [p] => p
  | p :: rest => p ++ 44 :: 32 :: join_comma rest
  end.

Fixpoint dumps (v : json) : pystr :=
  match v with
  | JNull => lit "null"
  | JBool true => lit "true"
  | JBool false => lit "false"
  | JNum n => str_of_Z n
  | JStr s => encode_str s
  | JArr l => 91 :: join_comma (List.map dumps l) ++ [93]
  | JObj kvs =>
      123 :: join_comma
               (List.map (fun kv => encode_str (fst kv) ++ 58 :: 32 :: dumps (snd kv)) kvs)
          ++ [125]
  end.

(** ** [json.loads]

    The decoder: [py_scanstring] in strict mode, the number pattern
    restricted to integers, [JSONArray], [JSONObject] and [scan_once].
    [None] stands for [JSONDecodeError].  The recursion of the scanner is
    bounded by a fuel that [loads] sets to the length of the text: every
    nested call has consumed at least one character. *)

Definition is_ws (c : N) : bool :=
  (c =? 32) || (c =? 9) || (c =? 10) || (c =? 13).

Fixpoint skip_ws (s : pystr) : pystr :=
  match s with
  | c :: t => if is_ws c then skip_ws t else s
  | [] => []
  end.

Definition hex_value (c : N) : option N :=
  if (48 <=? c) && (c <=? 57) then Some (c - 48)
  else if (97 <=? c) && (c <=? 102) then Some (c - 87)
  else if (65 <=? c) && (c <=? 70) then Some (c - 55)
  else None.

(** [_decode_uXXXX]: four hexadecimal digits. *)
Definition decode_hex4 (a b c d : N) : option N :=
  match hex_value a, hex_value b, hex_value c, hex_value d with
  | Some x, Some y, Some z, Some w => Some (((x * 16 + y) * 16 + z) * 16 + w)
  | _, _, _, _ => None
  end.

(** The [BACKSLASH] table of the decoder. *)
Definition backslash (e : N) : option N :=
  if e =? 34 then Some 34
  else if e =? 92 then Some 92
  else if e =? 47 then Some 47
  else if e =? 98 then Some 8
  else if e =? 102 then Some 12
  else if e =? 110 then Some 10
  else if e =? 114 then Some 13
  else if e =? 116 then Some 9
  else None.

(** [py_scanstring], entered after the opening quote; returns the decoded
    string and the text after the closing quote. *)
Fixpoint scanstring (s : pystr) : option (pystr * pystr) :=
  match s with
  | [] => None
  | c :: t =>
      if c =? 34 then Some ([], t)
      else if c =? 92 then
        match t with
        | [] => None
        | e :: t1 =>
            if e =? 117 then
              match t1 with
              | h1 :: h2 :: h3 :: h4 :: t2 =>
                  match decode_hex4 h1 h2 h3 h4 with
                  | None => None
                  | Some uni =>
                      let single :=
                        match scanstring t2 with
                        | Some (r, rest) => Some (uni :: r, rest)
                        | None => None
                        end in
                      if (55296 <=? uni) && (uni <=? 56319) then
                        match t2 with
                        | b :: u :: t3 =>
                            if (b =? 92) && (u =? 117) then
                              match t3 with
                              | g1 :: g2 :: g3 :: g4 :: t4 =>
                                  match decode_hex4 g1 g2 g3 g4 with
                                  | None => None
                                  | Some uni2 =>
                                      if (56320 <=? uni2) && (uni2 <=? 57343) then
                                        let c2 :=
                                          65536 + N.lor (N.shiftl (uni - 55296) 10)
                                                        (uni2 - 56320) in
                                        match scanstring t4 with
                                        | Some (r, rest) => Some (c2 :: r, rest)
                                        | None => None
                                        end
                                      else single
                                  end
                              | _ => None
                              end
                            else single
                        | _ => single
                        end
                      else single
                  end
              | _ => None
              end
            else
              match backslash e with
              | None => None
              | Some ch =>
                  match scanstring t1 with
                  | Some (r, rest) => Some (ch :: r, rest)
                  | None => None
                  end
              end
        end
      else if c <? 32 then None
      else
        match scanstring t with
        | Some (r, rest) => Some (c :: r, rest)
        | None => None
        end
  end.

Definition is_digit (c : N) : bool := (48 <=? c) && (c <=? 57).

(** The digits matched by [\d*] and their value, continuing from [acc]. *)
Fixpoint scan_digits (acc : N) (s : pystr) : N * pystr :=
  match s with
  | c :: t => if is_digit c then scan_digits (acc * 10 + (c - 48)) t else (acc, s)
  | [] => (acc, [])
  end.

(** The integer part of [NUMBER_RE]: an optional sign, then a lone zero or
    a non-zero digit followed by digits.  A match continued
    by a fraction or an exponent is a [float] and has no value here; so
    has a match followed by [.] or [e] alone, which no JSON text allows
    after a value. *)
Definition scan_int (s : pystr) : option (Z * pystr) :=
  let '(neg, s1) :=
    match s with
    | c :: t => if c =? 45 then (true, t) else (false, s)
    | [] => (false, s)
    end in
  let magnitude :=
    match s1 with
    | d :: t =>
        if d =? 48 then Some (0, t)
        else if is_digit d then Some (scan_digits (d - 48) t)
        else None
    | [] => None
    end in
  match magnitude with
  | None => None
  | Some (m, rest) =>
      let float_like :=
        match rest with
        | c :: _ => (c =? 46) || (c =? 101) || (c =? 69)
        | [] => false
        end in
      if float_like then None
      else Some (if neg then Z.opp (Z.of_N m) else Z.of_N m, rest)
  end.

Fixpoint scan_once (fuel : nat) (s : pystr) {struct fuel} : option (json * pystr) :=
  match fuel with
  | O => None
  | S f =>
      match s with
      | [] => None
      | c :: t =>
          if c =? 34 then
            match scanstring t with
            | Some (str, rest) => Some (JStr str, rest)
            | None => None
            end
          else if c =? 123 then
            let t' := skip_ws t in
            match t' with
            | c' :: r =>
                if c' =? 125 then Some (JObj [], r)
                else if c' =? 34 then
                  match scan_members f r with
                  | Some (pairs, rest) => Some (JObj (dict_of_pairs pairs), rest)
                  | None => None
                  end
                else None
            | [] => None
            end
          else if c =? 91 then
            let t' := skip_ws t in
            match t' with
            | c' :: r =>
                if c' =? 93 then Some (JArr [], r)
                else
                  match scan_elements f t' with
                  | Some (vs, rest) => Some (JArr vs, rest)
                  | None => None
                  end
            | [] => None
            end
          else
            match strip_prefix (lit "null") s with
            | Some rest => Some (JNull, rest)
            | None =>
            match strip_prefix (lit "true") s with
            | Some rest => Some (JBool true, rest)
            | None =>
            match strip_prefix (lit "false") s with
            | Some rest => Some (JBool false, rest)
            | None =>
            match scan_int s with
            | Some (n, rest) => Some (JNum n, rest)
            | None => None
            end end end end
      end
  end

(** The loop of [JSONArray], entered at the first character of a value. *)
with scan_elements (fuel : nat) (s : pystr) {struct fuel}
  : option (list json * pystr) :=
  match fuel with
  | O => None
  | S f =>
      match scan_once f s with
      | None => None
      | Some (v, rest) =>
          match skip_ws rest with
          | c :: r =>
              if c =? 93 then Some ([v], r)
              else if c =? 44 then
                match scan_elements f (skip_ws r) with
                | Some (vs, rest') => Some (v :: vs, rest')
                | None => None
                end
              else None
          | [] => None
          end
      end
  end

(** The loop of [JSONObject], entered after the opening quote of a key. *)
with scan_members (fuel : nat) (s : pystr) {struct fuel}
  : option (list (pystr * json) * pystr) :=
  match fuel with
  | O => None
  | S f =>
      match scanstring s with
      | None => None
      | Some (key, rest) =>
          match skip_ws rest with
          | c :: r =>
              if c =? 58 then
                match scan_once f (skip_ws r) with
                | None => None
                | Some (v, rest1) =>
                    match skip_ws rest1 with
                    | c1 :: r1 =>
                        if c1 =? 125 then Some ([(key, v)], r1)
                        else if c1 =? 44 then
                          match skip_ws r1 with
                          | q :: r2 =>
                              if q =? 34 then
                                match scan_members f r2 with
                                | Some (ps, rest') => Some ((key, v) :: ps, rest')
                                | None => None
                                end
                              else None
                          | [] => None
                          end
                        else None
                    | [] => None
                    end
                end
              else None
          | [] => None
          end
      end
  end.

(** [JSONDecoder.decode]: leading white space, one value, trailing white
    space, nothing more. *)
Definition loads (s : pystr) : option json :=
  match scan_once (S (List.length s)) (skip_ws s) with
  | Some (v, rest) =>
      match skip_ws rest with
      | [] => Some v
      | _ :: _ => None
      end
  | None => None
  end.

Local Open Scope Z_scope.

(** ** Exceptions

    What a handler body can raise: the built-in errors of subscripting and
    membership tests, the decoder's error, a failure of the storage layer,
    an [AuthError] of the permission gate, and the [HTTPException] that
    [abort(code)] raises. *)

Inductive StoreErrorKind := ValidationFailed | Unavailable.

Record AuthErrorInfo := { code : pystr; description : pystr }.

(** [AuthError(error, status_code)]. *)
Record AuthError := { error : AuthErrorInfo; status_code : Z }.

Inductive exn :=
| KeyError (k : pystr)
| TypeError
| JSONDecodeError
| StoreError (k : StoreErrorKind)
| AuthErrorExc (e : AuthError)
| HTTPException (code : Z).

Inductive result (A : Type) :=
| Return (a : A)
| Raise (e : exn).
Arguments Return {A} a.
Arguments Raise {A} e.

#[global] Instance result_ret : MRet result := fun A a => Return a.
#[global] Instance result_bind : MBind result := fun A B f r =>
  match r with
  | Return a => f a
  | Raise e => Raise e
  end.

(** ** Membership and subscripting on request data *)

(** [k in data] for a [str] key [k]: key lookup in a [dict], element
    comparison in a [list], substring search in a [str]; the other JSON
    values are not iterable. *)
Definition py_in (k : pystr) (data : json) : result bool :=
  match data with
  | JObj kvs => Return (dict_has k kvs)
  | JArr l =>
      Return (existsb (fun x => match x with JStr s => str_eqb k s | _ => false end) l)
  | JStr s => Return (str_contains k s)
  | JNull | JBool _ | JNum _ => Raise TypeError
  end.

(** [k not in data]. *)
Definition py_not_in (k : pystr) (data : json) : result bool :=
  match py_in k data with
  | Return b => Return (negb b)
  | Raise e => Raise e
  end.

(** [data[k]] for a [str] key [k]: defined on a [dict] only. *)
Definition py_getitem (data : json) (k : pystr) : result json :=
  match data with
  | JObj kvs =>
      match dict_get k kvs with
      | Some v => Return v
      | None => Raise (KeyError k)
      end
  | _ => Raise TypeError
  end.

(** Truth value of a [str]: the empty string is false. *)
Definition truthy (s : pystr) : bool :=
  match s with [] => false | _ :: _ => true end.

(** ** The [Drink] table *)

(** A [Drink] object: the primary key, the title the handler assigned and
    the recipe as serialized text. *)
Record Drink := { id : Z; title : json; recipe : pystr }.

(** The database: the rows of the single table keyed by primary key, the
    next key to assign, and whether the storage answers at all. *)
Record Database := {
  rows : gmap Z (json * pystr);
  next_id : Z;
  available : bool
}.

(** A computation of a handler: it reads and changes the database and
    either returns or raises.  What was committed before an exception
    stays committed. *)
Definition M (A : Type) : Type := Database -> Database * result A.

#[global] Instance M_ret : MRet M := fun A a db => (db, Return a).
#[global] Instance M_bind : MBind M := fun A B f m db =>
  match m db with
  | (db', Return a) => f a db'
  | (db', Raise e) => (db', Raise e)
  end.

Definition raise {A} (e : exn) : M A := fun db => (db, Raise e).

Definition lift {A} (r : result A) : M A := fun db => (db, r).

(** [abort(code)]. *)
Definition abort {A} (code : Z) : M A := raise (HTTPException code).

(** [try: body / except: handler], the bare [except] that catches every
    exception. *)
Definition try_except {A} (body : M A) (handler : exn -> M A) : M A :=
  fun db =>
    match body db with
    | (db', Return a) => (db', Return a)
    | (db', Raise e) => handler e db'
    end.

Fixpoint mapR {A B} (f : A -> result B) (l : list A) : result (list B) :=
  match l with
  | [] => Return []
  | x :: rest =>
      match f x with
      | Raise e => Raise e
      | Return y =>
          match mapR f rest with
          | Raise e => Raise e
          | Return ys => Return (y :: ys)
          end
      end
  end.

Definition to_drink (kv : Z * (json * pystr)) : Drink :=
  {| id := kv.1; title := kv.2.1; recipe := kv.2.2 |}.

Definition id_le (a b : Drink) : Prop := id a <= id b.

#[global] Instance id_le_dec : RelDecision id_le.
Proof. intros a b. unfold id_le. apply _. Defined.

(** Modelled from the spec: [database/models.py] is missing.  The spec's
    [list_all]: every row, ordered by id ascending; it fails only when the
    storage is unavailable.  This is what
    [Drink.query.order_by(Drink.id).all()] asks of the table. *)
Definition Drink_query_order_by_id_all : M (list Drink) := fun db =>
  if available db
  then (db, Return (merge_sort id_le (to_drink <$> map_to_list (rows db))))
  else (db, Raise (StoreError Unavailable)).

(** Modelled from the spec: [database/models.py] is missing.  The spec's
    [get]: the row with that id, or [None]. *)
Definition Drink_query_get (i : Z) : M (option Drink) := fun db =>
  if available db
  then (db, Return ((fun r => {| id := i; title := r.1; recipe := r.2 |}) <$> rows db !! i))
  else (db, Raise (StoreError Unavailable)).

(** A title that is absent or empty. *)
Definition title_missing (t : json) : bool :=
  match t with
  | JNull => true
  | JStr [] => true
  | _ => false
  end.

(** Modelled from the spec: [database/models.py] is missing.  The spec's
    [create]: [Drink(title=..., recipe=...)] followed by [insert()]
    assigns a new id, persists the row and returns the persisted object;
    it fails with [ValidationFailed] on an absent or empty title. *)
Definition Drink_insert (t : json) (r : pystr) : M Drink := fun db =>
  if negb (available db) then (db, Raise (StoreError Unavailable))
  else if title_missing t then (db, Raise (StoreError ValidationFailed))
  else
    let i := next_id db in
    ({| rows := <[i := (t, r)]> (rows db); next_id := i + 1; available := true |},
     Return {| id := i; title := t; recipe := r |}).

(** Modelled from the spec: [database/models.py] is missing.  The spec's
    [update]: persists the fields of the object under its id. *)
Definition Drink_update (d : Drink) : M unit := fun db =>
  if available db
  then ({| rows := <[id d := (title d, recipe d)]> (rows db);
           next_id := next_id db; available := true |}, Return tt)
  else (db, Raise (StoreError Unavailable)).

(** Modelled from the spec: [database/models.py] is missing.  The spec's
    [delete]: removes the row. *)
Definition Drink_delete (d : Drink) : M unit := fun db =>
  if available db
  then ({| rows := delete (id d) (rows db);
           next_id := next_id db; available := true |}, Return tt)
  else (db, Raise (StoreError Unavailable)).

(** Modelled from the spec: [database/models.py] is missing.  The long
    form: id, title and the full recipe, deserialized from the stored
    text. *)
Definition Drink_long (d : Drink) : result json :=
  match loads (recipe d) with
  | None => Raise JSONDecodeError
  | Some r =>
      Return (JObj [(lit "id", JNum (id d)); (lit "title", title d); (lit "recipe", r)])
  end.

(** An ingredient entry without its quantity field. *)
Definition redact_entry (e : json) : json :=
  match e with
  | JObj kvs => JObj (List.filter (fun kv => negb (str_eqb (lit "parts") (fst kv))) kvs)
  | _ => e
  end.

(** Modelled from the spec: [database/models.py] is missing.  The short
    form: id, title and the recipe with the quantity fields omitted. *)
Definition Drink_short (d : Drink) : result json :=
  match loads (recipe d) with
  | None => Raise JSONDecodeError
  | Some r =>
      let r' := match r with
                | JArr entries => JArr (List.map redact_entry entries)
                | _ => r
                end in
      Return (JObj [(lit "id", JNum (id d)); (lit "title", title d); (lit "recipe", r')])
  end.

(** ** Requests *)

Inductive Method := GET | POST | PATCH | DELETE | PUT.

(** The URL of a request, as the routing rules see it:
    [/drinks], [/drinks-detail], [/drinks/<int:id>], or anything else. *)
Inductive Path :=
| drinks_url
| drinks_detail_url
| drinks_id_url (i : Z)
| other_url.

(** A bearer token, described by what verification against the identity
    provider's key set finds in it. *)
Record Token := {
  well_formed : bool;
  signature_valid : bool;
  not_expired : bool;
  claims_valid : bool;
  permissions : list pystr
}.

(** The body as [request.get_json()] sees it. *)
Inductive Body :=
| json_body (data : json)
| malformed_body.

Record Request := {
  method : Method;
  path : Path;
  authorization : option Token;
  req_body : Body
}.

(** [request.get_json()]: the parsed body; text that is not JSON is a
    400 Bad Request. *)
Definition get_json (req : Request) : M json :=
  match req_body req with
  | json_body data => mret data
  | malformed_body => abort 400
  end.

(** ** The permission gate *)

Inductive AuthErrorKind :=
| MissingToken
| MalformedToken
| InvalidSignature
| Expired
| InvalidClaims
| InsufficientPermission.

(** Modelled from the spec: [auth/auth.py] is missing.  Every kind carries
    401 or 403; the spec fixes 401 for a request without token and 403 for
    a token without the permission, and the other kinds, failures to
    authenticate, are given 401. *)
Definition kind_status (k : AuthErrorKind) : Z :=
  match k with
  | InsufficientPermission => 403
  | _ => 401
  end.

Definition kind_info (k : AuthErrorKind) : AuthErrorInfo :=
  match k with
  | MissingToken =>
      {| code := lit "missing_token"; description := lit "No bearer token." |}
  | MalformedToken =>
      {| code := lit "malformed_token"; description := lit "Token is not well-formed." |}
  | InvalidSignature =>
      {| code := lit "invalid_signature"; description := lit "Signature verification failed." |}
  | Expired =>
      {| code := lit "token_expired"; description := lit "Token expired." |}
  | InvalidClaims =>
      {| code := lit "invalid_claims"; description := lit "Incorrect claims." |}
  | InsufficientPermission =>
      {| code := lit "unauthorized"; description := lit "Permission not found." |}
  end.

Definition auth_error_of (k : AuthErrorKind) : AuthError :=
  {| error := kind_info k; status_code := kind_status k |}.

(** The decoded payload of a verified token. *)
Record AuthContext := { granted : list pystr }.

(** Modelled from the spec: [auth/auth.py] is missing.  The Token
    Verifier: the failures in the order the spec lists them, then the
    permission check. *)
Definition verify (tok : option Token) (required : pystr) : result AuthContext :=
  match tok with
  | None => Raise (AuthErrorExc (auth_error_of MissingToken))
  | Some t =>
      if negb (well_formed t) then Raise (AuthErrorExc (auth_error_of MalformedToken))
      else if negb (signature_valid t) then Raise (AuthErrorExc (auth_error_of InvalidSignature))
      else if negb (not_expired t) then Raise (AuthErrorExc (auth_error_of Expired))
      else if negb (claims_valid t) then Raise (AuthErrorExc (auth_error_of InvalidClaims))
      else if existsb (str_eqb required) (permissions t)
           then Return {| granted := permissions t |}
           else Raise (AuthErrorExc (auth_error_of InsufficientPermission))
  end.

(** Modelled from the spec: [auth/auth.py] is missing.  The decorator
    [@requires_auth(permission)]: verifies the token of the request and
    calls the handler with the payload. *)
Definition requires_auth {A} (permission : pystr) (f : AuthContext -> M A)
    (req : Request) : M A :=
  payload ← lift (verify (authorization req) permission);
  f payload.

(** ** Responses *)

(** A response: the status and either the JSON document given to
    [jsonify] or the HTML page the framework renders by default. *)
Inductive ResponseBody :=
| json_doc (d : list (pystr * json))
| html_page.

Record Response := { status : Z; body : ResponseBody }.

Definition jsonify (d : list (pystr * json)) (st : Z) : Response :=
  {| status := st; body := json_doc d |}.

(** ** Routes *)

Definition get_drinks (req : Request) : M Response :=
  try_except
    (drinks ← Drink_query_order_by_id_all;
     shorts ← lift (mapR Drink_short drinks);
     mret (jsonify [(lit "success", JBool true); (lit "drinks", JArr shorts)] 200))
    (fun _ => abort 404).

Definition get_drinks_detail : Request -> M Response :=
  requires_auth (lit "get:drinks-detail") (fun payload =>
    try_except
      (drinks ← Drink_query_order_by_id_all;
       longs ← lift (mapR Drink_long drinks);
       mret (jsonify [(lit "success", JBool true); (lit "drinks", JArr longs)] 200))
      (fun _ => abort 404)).

(** The guard of [post_drink] is the expression
    ['title' and 'recipe' not in data]: [not in] binds tighter than [and],
    and [and] yields its right operand when the left one is true. *)
Definition post_drink (req : Request) : M Response :=
  requires_auth (lit "post:drinks") (fun payload =>
    data ← get_json req;
    guard ← (if truthy (lit "title")
             then lift (py_not_in (lit "recipe") data)
             else mret false);
    if guard : bool then abort 422
    else
      t ← lift (py_getitem data (lit "title"));
      r ← lift (py_getitem data (lit "recipe"));
      let recipe_json := dumps r in
      drink ← Drink_insert t recipe_json;
      long ← lift (Drink_long drink);
      mret (jsonify [(lit "success", JBool true); (lit "drinks", JArr [long])] 200)) req.

Definition update_drink (i : Z) (req : Request) : M Response :=
  requires_auth (lit "patch:drinks") (fun payload =>
    found ← Drink_query_get i;
    match found with
    | None => abort 404
    | Some drink =>
        data ← get_json req;
        has_title ← lift (py_in (lit "title") data);
        drink1 ← (if has_title : bool
                  then t ← lift (py_getitem data (lit "title"));
                       mret {| id := id drink; title := t; recipe := recipe drink |}
                  else mret drink);
        has_recipe ← lift (py_in (lit "recipe") data);
        drink2 ← (if has_recipe : bool
                  then r ← lift (py_getitem data (lit "recipe"));
                       mret {| id := id drink1; title := title drink1; recipe := dumps r |}
                  else mret drink1);
        _ ← Drink_update drink2;
        long ← lift (Drink_long drink2);
        mret (jsonify [(lit "success", JBool true); (lit "drinks", JArr [long])] 200)
    end) req.

Definition delete_drink (i : Z) (req : Request) : M Response :=
  requires_auth (lit "delete:drinks") (fun payload =>
    found ← Drink_query_get i;
    match found with
    | None => abort 404
    | Some drink =>
        _ ← Drink_delete drink;
        mret (jsonify [(lit "success", JBool true); (lit "delete", JNum (id drink))] 200)
    end) req.

(** ** Error handling *)

Definition bad_request : Response :=
  jsonify [(lit "success", JBool false); (lit "error", JNum 400);
           (lit "message", JStr (lit "Bad Request"))] 400.

Definition unauthorized : Response :=
  jsonify [(lit "success", JBool false); (lit "error", JNum 401);
           (lit "message", JStr (lit "unauthorized"))] 401.

Definition not_found : Response :=
  jsonify [(lit "success", JBool false); (lit "error", JNum 404);
           (lit "message", JStr (lit "Not Found"))] 404.

Definition method_not_allowed : Response :=
  jsonify [(lit "success", JBool false); (lit "error", JNum 405);
           (lit "message", JStr (lit "Method Not Allowed"))] 405.

Definition uproccessable : Response :=
  jsonify [(lit "success", JBool false); (lit "error", JNum 422);
           (lit "message", JStr (lit "Unproccessable"))] 422.

Definition internal_server_error : Response :=
  jsonify [(lit "success", JBool false); (lit "error", JNum 500);
           (lit "message", JStr (lit "Internal Server Error"))] 500.

Definition auth_error (e : AuthError) : Response :=
  jsonify [(lit "success", JBool false); (lit "error", JNum (status_code e));
           (lit "message", JStr (description (error e)))] (status_code e).

(** The handlers registered with [@app.errorhandler(code)]. *)
Definition errorhandler (c : Z) : option Response :=
  if c =? 400 then Some bad_request
  else if c =? 401 then Some unauthorized
  else if c =? 404 then Some not_found
  else if c =? 405 then Some method_not_allowed
  else if c =? 422 then Some uproccessable
  else if c =? 500 then Some internal_server_error
  else None.

(** What the framework does with an exception that leaves a view: an
    [AuthError] goes to its registered handler, an [HTTPException] to the
    handler of its code (or to the default page when none is registered),
    anything else becomes a 500 Internal Server Error. *)
Definition handle_exception (e : exn) : Response :=
  match e with
  | AuthErrorExc a => auth_error a
  | HTTPException c =>
      match errorhandler c with
      | Some r => r
      | None => {| status := c; body := html_page |}
      end
  | _ =>
      match errorhandler 500 with
      | Some r => r
      | None => {| status := 500; body := html_page |}
      end
  end.

(** The URL map built by the [@app.route] decorators: an unknown URL is a
    404, a known URL with a method it does not list a 405. *)
Definition dispatch (req : Request) : M Response :=
  match path req, method req with
  | drinks_url, GET => get_drinks req
  | drinks_url, POST => post_drink req
  | drinks_detail_url, GET => get_drinks_detail req
  | drinks_id_url i, PATCH => update_drink i req
  | drinks_id_url i, DELETE => delete_drink i req
  | other_url, _ => abort 404
  | _, _ => abort 405
  end.

(** One request against the application: the new database and the
    response sent. *)
Definition app (req : Request) (db : Database) : Database * Response :=
  match dispatch req db with
  | (db', Return r) => (db', r)
  | (db', Raise e) => (db', handle_exception e)
  end.

Arguments loads : simpl never.
Arguments lit : simpl never.
Arguments dumps : simpl never.

(** ** Vocabulary of the properties *)

(** The token of the request passes the gate for [permission]. *)
Definition authorized (a : option Token) (permission : pystr) : bool :=
  match verify a permission with
  | Return _ => true
  | Raise _ => false
  end.

(** The permission a route is gated by, [None] for the public route and
    for requests that match no route. *)
Definition required_permission (req : Request) : option pystr :=
  match path req, method req with
  | drinks_detail_url, GET => Some (lit "get:drinks-detail")
  | drinks_url, POST => Some (lit "post:drinks")
  | drinks_id_url _, PATCH => Some (lit "patch:drinks")
  | drinks_id_url _, DELETE => Some (lit "delete:drinks")
  | _, _ => None
  end.

(** The uniform error document: [success] false, the numeric code, which
    is also the status of the response, and a text. *)
Definition error_envelope (r : Response) : Prop :=
  exists message : pystr,
    r = jsonify [(lit "success", JBool false); (lit "error", JNum (status r));
                 (lit "message", JStr message)] (status r).

(** The document of a successful view: [success] true and one more
    entry, with status 200. *)
Definition success_document (r : Response) : Prop :=
  exists (k : pystr) (v : json),
    r = jsonify [(lit "success", JBool true); (k, v)] 200.

(** The exceptions the error handlers of the application render as the
    uniform error document: an [HTTPException] must carry a code that has
    a registered handler. *)
Definition rendered (e : exn) : Prop :=
  match e with
  | HTTPException c => is_Some (errorhandler c)
  | _ => True
  end.

(** A computation that returns only values satisfying [P] and raises only
    rendered exceptions. *)
Definition behaves {A} (P : A -> Prop) (m : M A) : Prop :=
  forall db, match (m db).2 with
             | Return a => P a
             | Raise e => rendered e
             end.

(** A [str] as the interpreter and the request parser produce it: code
    points below 0x110000, and no high surrogate directly followed by a
    low one (the decoder has combined such pairs into one character). *)
Definition is_high (c : N) : bool := ((55296 <=? c) && (c <=? 56319))%N.
Definition is_low (c : N) : bool := ((56320 <=? c) && (c <=? 57343))%N.

Fixpoint valid_str (s : pystr) : bool :=
  match s with
  | [] => true
  | c :: t =>
      (c <? 1114112)%N
      && negb (is_high c && match t with c' :: _ => is_low c' | [] => false end)
      && valid_str t
  end.

Fixpoint distinct (ks : list pystr) : bool :=
  match ks with
  | [] => true
  | k :: rest => negb (existsb (str_eqb k) rest) && distinct rest
  end.

(** A JSON value as Python holds it: valid strings, and the keys of a
    [dict] pairwise different. *)
Fixpoint wf_json (v : json) : bool :=
  match v with
  | JNull | JBool _ | JNum _ => true
  | JStr s => valid_str s
  | JArr l => forallb wf_json l
  | JObj kvs =>
      distinct (List.map fst kvs)
      && forallb (fun kv => valid_str (fst kv) && wf_json (snd kv)) kvs
  end.

(** What the encoder writes after a value: nothing, a comma, or the
    closing bracket or brace. *)
Definition follows_value (rest : pystr) : bool :=
  match rest with
  | [] => true
  | c :: _ => ((c =? 44) || (c =? 93) || (c =? 125))%N
  end.

(** The first character of an encoded value: never white space, a comma
    or a closing bracket or brace. *)
Definition starts_value (t : pystr) : Prop :=
  match t with
  | [] => False
  | c :: _ => is_ws c = false /\ c <> 93%N /\ c <> 125%N /\ c <> 44%N
  end.

(** The text of one member of an object, as [dumps] writes it. *)
Definition member_text (kv : pystr * json) : pystr :=
  encode_str (fst kv) ++ 58%N :: 32%N :: dumps (snd kv).

(** An ingredient entry of a recipe: name, color and quantity. *)
Record Ingredient := { name : pystr; color : pystr; parts : Z }.

Definition ingredient_json (g : Ingredient) : json :=
  JObj [(lit "name", JStr (name g)); (lit "color", JStr (color g));
        (lit "parts", JNum (parts g))].

(** The recipe structure as the request carries it. *)
Definition recipe_json (r : list Ingredient) : json :=
  JArr (List.map ingredient_json r).

Definition valid_ingredient (g : Ingredient) : bool :=
  valid_str (name g) && valid_str (color g).

(** ** Sample data *)

Definition token_with (perms : list pystr) : Token :=
  {| well_formed := true; signature_valid := true; not_expired := true;
     claims_valid := true; permissions := perms |}.

Definition manager : Token :=
  token_with [lit "get:drinks-detail"; lit "post:drinks"; lit "patch:drinks";
              lit "delete:drinks"].

Definition barista : Token := token_with [lit "get:drinks-detail"].

Definition water_recipe : json :=
  JArr [JObj [(lit "name", JStr (lit "Water")); (lit "color", JStr (lit "blue"));
              (lit "parts", JNum 1)]].

Definition sample_db : Database :=
  {| rows := {[ 2 := (JStr (lit "Latte"), lit "[]");
                1 := (JStr (lit "Water"), dumps water_recipe) ]};
     next_id := 3;
     available := true |}.

Definition offline_db : Database :=
  {| rows := rows sample_db; next_id := next_id sample_db; available := false |}.

Definition request (m : Method) (p : Path) (a : option Token) (b : Body) : Request :=
  {| method := m; path := p; authorization := a; req_body := b |}.

(** ** Vocabulary of the further properties *)

(** A computation of a handler, specified by what it may do to the
    database, what it may return and what it may raise. *)
Definition hoare {A} (R : Database -> Database -> Prop) (P : A -> Prop)
    (E : exn -> Prop) (m : M A) : Prop :=
  forall db,
    R db (m db).1
    /\ match (m db).2 with
       | Return a => P a
       | Raise e => E e
       end.

Definition same_db (db db' : Database) : Prop := db' = db.

(** At most the row with key [i] differs. *)
Definition only_row (i : Z) (db db' : Database) : Prop :=
  next_id db' = next_id db
  /\ available db' = available db
  /\ forall j, j <> i -> rows db' !! j = rows db !! j.

(** Nothing changed, or one row was written under the next key. *)
Definition at_most_created (db db' : Database) : Prop :=
  db' = db
  \/ exists row,
       db' = {| rows := <[next_id db := row]> (rows db);
                next_id := next_id db + 1; available := true |}.

(** The exceptions that leave a view: an [AuthError] built by the gate,
    an [abort] with one of four codes, or an error of the interpreter,
    the decoder or the storage. *)
Definition expected (e : exn) : Prop :=
  match e with
  | AuthErrorExc a => exists k, a = auth_error_of k
  | HTTPException c => c = 400 \/ c = 404 \/ c = 405 \/ c = 422
  | KeyError _ | TypeError | JSONDecodeError | StoreError _ => True
  end.

(** A printable ASCII character. *)
Definition printable (c : N) : bool := ((32 <=? c) && (c <=? 126))%N.

(** A JSON value that is not an object. *)
Definition not_object (data : json) : bool :=
  match data with
  | JObj _ => false
  | _ => true
  end.

(** * Properties *)

Lemma authorized_verify (a : option Token) (p : pystr) :
  authorized a p = true -> exists ctx, verify a p = Return ctx.
Proof. unfold authorized. destruct (verify a p); [eauto | discriminate]. Qed.

Lemma db_eta (db : Database) :
  available db = true ->
  {| rows := rows db; next_id := next_id db; available := true |} = db.
Proof. destruct db; cbn. by intros ->. Qed.

(** ** Stepping through a handler *)

Lemma bind_return {A B} (m : M A) (f : A -> M B) (db db' : Database) (a : A) :
  m db = (db', Return a) -> (m ≫= f) db = f a db'.
Proof. intros H. unfold mbind, M_bind. by rewrite H. Qed.

Lemma bind_raise {A B} (m : M A) (f : A -> M B) (db db' : Database) (e : exn) :
  m db = (db', Raise e) -> (m ≫= f) db = (db', Raise e).
Proof. intros H. unfold mbind, M_bind. by rewrite H. Qed.

Lemma gate_open {A} (p : pystr) (f : AuthContext -> M A) (req : Request)
    (db : Database) :
  authorized (authorization req) p = true ->
  exists ctx, requires_auth p f req db = f ctx db.
Proof.
  intros H. destruct (authorized_verify _ _ H) as [ctx Hctx].
  exists ctx. unfold requires_auth. apply bind_return. unfold lift. by rewrite Hctx.
Qed.

Lemma gate_closed {A} (p : pystr) (f : AuthContext -> M A) (req : Request)
    (db : Database) (e : exn) :
  verify (authorization req) p = Raise e ->
  requires_auth p f req db = (db, Raise e).
Proof.
  intros H. unfold requires_auth. apply bind_raise. unfold lift. by rewrite H.
Qed.

Ltac open_gate H :=
  match goal with
  | |- context [requires_auth ?p ?f ?req ?db] =>
      let ctx := fresh "ctx" in
      destruct (gate_open p f req db H) as [ctx ->]
  end.

Lemma query_get_available (db : Database) (i : Z) :
  available db = true ->
  Drink_query_get i db
  = (db, Return ((fun r => {| id := i; title := r.1; recipe := r.2 |}) <$> rows db !! i)).
Proof. intros H. unfold Drink_query_get. by rewrite H. Qed.

Lemma query_get_unavailable (db : Database) (i : Z) :
  available db = false ->
  Drink_query_get i db = (db, Raise (StoreError Unavailable)).
Proof. intros H. unfold Drink_query_get. by rewrite H. Qed.

Lemma delete_available (db : Database) (d : Drink) :
  available db = true ->
  Drink_delete d db
  = ({| rows := delete (id d) (rows db); next_id := next_id db; available := true |},
     Return tt).
Proof. intros H. unfold Drink_delete. by rewrite H. Qed.

Lemma update_available (db : Database) (d : Drink) :
  available db = true ->
  Drink_update d db
  = ({| rows := <[id d := (title d, recipe d)]> (rows db);
        next_id := next_id db; available := true |}, Return tt).
Proof. intros H. unfold Drink_update. by rewrite H. Qed.

Lemma query_all_available (db : Database) :
  available db = true ->
  Drink_query_order_by_id_all db
  = (db, Return (merge_sort id_le (to_drink <$> map_to_list (rows db)))).
Proof. intros H. unfold Drink_query_order_by_id_all. by rewrite H. Qed.


Lemma str_eqb_eq (a b : pystr) : str_eqb a b = true <-> a = b.
Proof.
  revert b. induction a as [|x a IH]; intros [|y b]; cbn; try easy.
  rewrite andb_true_iff, N.eqb_eq, IH. split; [intros [-> ->]; done | intros [= -> ->]; done].
Qed.

Lemma existsb_str_eqb (p : pystr) (l : list pystr) :
  existsb (str_eqb p) l = true <-> p ∈ l.
Proof.
  induction l as [|x l IH]; cbn.
  - split; [discriminate | by intros ?%elem_of_nil].
  - rewrite orb_true_iff, str_eqb_eq, IH, elem_of_cons. done.
Qed.

(** A token that verifies but does not carry the permission is refused
    with the [InsufficientPermission] error. *)
Lemma verify_lacking (t : Token) (p : pystr) :
  well_formed t = true -> signature_valid t = true ->
  not_expired t = true -> claims_valid t = true ->
  p ∉ permissions t ->
  verify (Some t) p = Raise (AuthErrorExc (auth_error_of InsufficientPermission)).
Proof.
  intros H1 H2 H3 H4 Hp. unfold verify. rewrite H1, H2, H3, H4. cbn.
  destruct (existsb (str_eqb p) (permissions t)) eqn:E; [|done].
  by apply existsb_str_eqb in E.
Qed.

(** Whatever the gate raises is an [AuthError] of one of the six kinds. *)
Lemma verify_raises (a : option Token) (p : pystr) (e : exn) :
  verify a p = Raise e -> exists k, e = AuthErrorExc (auth_error_of k).
Proof.
  unfold verify. intros H.
  repeat case_match; simplify_eq; eauto.
Qed.

Lemma kind_status_cases (k : AuthErrorKind) : kind_status k = 401 \/ kind_status k = 403.
Proof. destruct k; cbn; auto. Qed.

(** C2 (as the code has it): deleting an existing drink removes its row,
    leaves the other rows alone and answers 200 with the document
    {success: true, delete: id}: the id of the removed record is under the
    key [delete]. *)
Theorem delete_existing (db : Database) (i : Z) (a : option Token) (b : Body)
    (t : json) (r : pystr) :
  available db = true ->
  authorized a (lit "delete:drinks") = true ->
  rows db !! i = Some (t, r) ->
  exists db',
    app (request DELETE (drinks_id_url i) a b) db
      = (db', jsonify [(lit "success", JBool true); (lit "delete", JNum i)] 200)
    /\ rows db' !! i = None
    /\ (forall j, j <> i -> rows db' !! j = rows db !! j).
Proof.
  intros Hav Hauth Hrow.
  unfold app, dispatch, request, delete_drink. cbn [path method].
  open_gate Hauth.
  erewrite bind_return by (by apply query_get_available).
  rewrite Hrow. cbn.
  erewrite bind_return by (by apply delete_available).
  eexists. split; [reflexivity|]. cbn. split.
  - apply lookup_delete_eq.
  - intros j Hj. by apply lookup_delete_ne.
Qed.

Lemma delete_existing_witness :
  exists db',
    app (request DELETE (drinks_id_url 1) (Some manager) malformed_body) sample_db
      = (db', jsonify [(lit "success", JBool true); (lit "delete", JNum 1)] 200)
    /\ rows db' !! 1 = None
    /\ (forall j, j <> 1 -> rows db' !! j = rows sample_db !! j).
Proof.
  apply (delete_existing sample_db 1 (Some manager) malformed_body
           (JStr (lit "Water")) (dumps water_recipe)); reflexivity.
Defined.

(** C2, counterexample: the document of a successful DELETE has no
    [deleted] key, so it is not {success: true, deleted: id}. *)
Lemma delete_document_not_deleted_key :
  let out := app (request DELETE (drinks_id_url 1) (Some manager) malformed_body)
                 sample_db in
  rows sample_db !! 1 <> None
  /\ rows out.1 !! 1 = None
  /\ status out.2 = 200
  /\ body out.2 <> json_doc [(lit "success", JBool true); (lit "deleted", JNum 1)]
  /\ (forall d, body out.2 = json_doc d -> dict_get (lit "deleted") d = None).
Proof.
  cbv zeta. repeat split.
  - vm_compute. discriminate.
  - vm_compute. discriminate.
  - intros d H. vm_compute in H. injection H as <-. reflexivity.
Qed.

(** C5: DELETE on an id that is not in the table never answers 200 and
    leaves the database as it was; past the permission gate, with the
    storage answering, the response is the 404 document. *)
Theorem delete_missing (db : Database) (i : Z) (a : option Token) (b : Body) :
  rows db !! i = None ->
  (app (request DELETE (drinks_id_url i) a b) db).1 = db
  /\ status (app (request DELETE (drinks_id_url i) a b) db).2 <> 200
  /\ (available db = true -> authorized a (lit "delete:drinks") = true ->
      app (request DELETE (drinks_id_url i) a b) db = (db, not_found)).
Proof.
  intros Hrow.
  unfold app, dispatch, request, delete_drink. cbn [path method].
  destruct (verify a (lit "delete:drinks")) as [ctx|e] eqn:Hv.
  - assert (Hauth : authorized a (lit "delete:drinks") = true)
      by (unfold authorized; by rewrite Hv).
    open_gate Hauth.
    destruct (available db) eqn:Hav.
    + erewrite bind_return by (by apply query_get_available).
      rewrite Hrow. cbn. repeat split; done.
    + erewrite bind_raise by (by apply query_get_unavailable).
      cbn. repeat split; done.
  - erewrite gate_closed by exact Hv.
    destruct (verify_raises _ _ _ Hv) as [k ->]. cbn.
    split; [done|]. split.
    + destruct k; cbn; done.
    + intros _ Hauth. unfold authorized in Hauth. by rewrite Hv in Hauth.
Qed.

Lemma delete_missing_witness :
  (app (request DELETE (drinks_id_url 7) (Some manager) malformed_body) sample_db).1
    = sample_db
  /\ status (app (request DELETE (drinks_id_url 7) (Some manager) malformed_body)
               sample_db).2 <> 200
  /\ app (request DELETE (drinks_id_url 7) (Some manager) malformed_body) sample_db
     = (sample_db, not_found).
Proof.
  destruct (delete_missing sample_db 7 (Some manager) malformed_body eq_refl)
    as (Hdb & Hstatus & H404).
  split; [exact Hdb|]. split; [exact Hstatus|].
  apply H404; reflexivity.
Defined.

Lemma py_in_dict (k : pystr) (kvs : list (pystr * json)) :
  py_in k (JObj kvs) = Return (dict_has k kvs).
Proof. reflexivity. Qed.

(** The two conditional assignments of [update_drink] on a [dict] body. *)
Lemma update_fields (drink : Drink) (kvs : list (pystr * json)) (db : Database)
    (k : Drink -> M Response) :
  (has_title ← lift (py_in (lit "title") (JObj kvs));
   drink1 ← (if has_title : bool
             then t ← lift (py_getitem (JObj kvs) (lit "title"));
                  mret {| id := id drink; title := t; recipe := recipe drink |}
             else mret drink);
   has_recipe ← lift (py_in (lit "recipe") (JObj kvs));
   drink2 ← (if has_recipe : bool
             then r ← lift (py_getitem (JObj kvs) (lit "recipe"));
                  mret {| id := id drink1; title := title drink1; recipe := dumps r |}
             else mret drink1);
   k drink2) db
  = k {| id := id drink;
         title := default (title drink) (dict_get (lit "title") kvs);
         recipe := from_option dumps (recipe drink) (dict_get (lit "recipe") kvs) |} db.
Proof.
  unfold mbind, M_bind, lift, mret, M_ret, py_in, py_getitem, dict_has.
  destruct (dict_get (lit "title") kvs) as [t|], (dict_get (lit "recipe") kvs) as [r|];
    cbn; try reflexivity.
  by destruct drink.
Qed.

(** C3: PATCH writes the fields present in the body and nothing else.  On
    an existing drink and a [dict] body, the row afterwards holds the
    title of the body if it has one and the old title otherwise, the
    serialized recipe of the body if it has one and the old text
    otherwise; the other rows and the key counter are untouched.  In
    particular a body with a title only leaves the stored recipe text
    identical. *)
Theorem patch_writes_present_fields (db : Database) (i : Z) (a : option Token)
    (kvs : list (pystr * json)) (t : json) (r : pystr) :
  available db = true ->
  authorized a (lit "patch:drinks") = true ->
  rows db !! i = Some (t, r) ->
  let db' := (app (request PATCH (drinks_id_url i) a (json_body (JObj kvs))) db).1 in
  rows db' !! i
    = Some (default t (dict_get (lit "title") kvs),
            from_option dumps r (dict_get (lit "recipe") kvs))
  /\ (forall j, j <> i -> rows db' !! j = rows db !! j)
  /\ next_id db' = next_id db
  /\ (forall x, kvs = [(lit "title", x)] -> rows db' !! i = Some (x, r))
  /\ (forall x, kvs = [(lit "recipe", x)] -> rows db' !! i = Some (t, dumps x)).
Proof.
  intros Hav Hauth Hrow db'.
  assert (Hdb : rows db' = <[i := (default t (dict_get (lit "title") kvs),
                                   from_option dumps r (dict_get (lit "recipe") kvs))]> (rows db)
                /\ next_id db' = next_id db).
  { subst db'. unfold app, dispatch, request, update_drink. cbn [path method].
    open_gate Hauth.
    erewrite bind_return by (by apply query_get_available).
    rewrite Hrow. cbn [fmap option_fmap option_map].
    erewrite bind_return by reflexivity.
    rewrite update_fields.
    erewrite bind_return by (by apply update_available).
    cbn. unfold mbind, M_bind, lift. by destruct (Drink_long _). }
  destruct Hdb as [Hrows Hnext].
  split; [by rewrite Hrows, lookup_insert_eq|].
  split; [intros j Hj; by rewrite Hrows, lookup_insert_ne|].
  split; [done|].
  split; intros x ->; by rewrite Hrows, lookup_insert_eq.
Qed.

Lemma patch_writes_present_fields_witness :
  let db' := (app (request PATCH (drinks_id_url 1) (Some manager)
                     (json_body (JObj [(lit "title", JStr (lit "Still water"))])))
                sample_db).1 in
  rows db' !! 1 = Some (JStr (lit "Still water"), dumps water_recipe)
  /\ rows db' !! 2 = rows sample_db !! 2
  /\ next_id db' = next_id sample_db.
Proof.
  destruct (patch_writes_present_fields sample_db 1 (Some manager)
              [(lit "title", JStr (lit "Still water"))]
              (JStr (lit "Water")) (dumps water_recipe) eq_refl eq_refl eq_refl)
    as (_ & Hothers & Hnext & Htitle & _).
  split; [exact (Htitle _ eq_refl)|].
  split; [apply Hothers; discriminate | exact Hnext].
Defined.

(** C10: PATCH with the empty object on an existing drink, whose stored
    recipe text deserializes, answers 200 with the drink in long form and
    leaves the database exactly as it was. *)
Theorem patch_empty_object (db : Database) (i : Z) (a : option Token)
    (t : json) (r : pystr) (v : json) :
  available db = true ->
  authorized a (lit "patch:drinks") = true ->
  rows db !! i = Some (t, r) ->
  loads r = Some v ->
  app (request PATCH (drinks_id_url i) a (json_body (JObj []))) db
  = (db, jsonify [(lit "success", JBool true);
                  (lit "drinks",
                   JArr [JObj [(lit "id", JNum i); (lit "title", t);
                               (lit "recipe", v)]])] 200).
Proof.
  intros Hav Hauth Hrow Hloads.
  unfold app, dispatch, request, update_drink. cbn [path method].
  open_gate Hauth.
  erewrite bind_return by (by apply query_get_available).
  rewrite Hrow. cbn [fmap option_fmap option_map].
  erewrite bind_return by reflexivity.
  rewrite update_fields. cbn [dict_get default from_option id title recipe fst snd].
  erewrite bind_return by (by apply update_available).
  cbn [id title recipe].
  rewrite (insert_id _ _ _ Hrow), (db_eta _ Hav).
  unfold mbind, M_bind, lift, Drink_long. cbn [recipe id title].
  rewrite Hloads. reflexivity.
Qed.

Lemma patch_empty_object_witness :
  app (request PATCH (drinks_id_url 1) (Some manager) (json_body (JObj []))) sample_db
  = (sample_db,
     jsonify [(lit "success", JBool true);
              (lit "drinks",
               JArr [JObj [(lit "id", JNum 1); (lit "title", JStr (lit "Water"));
                           (lit "recipe", water_recipe)]])] 200).
Proof.
  apply (patch_empty_object sample_db 1 (Some manager) (JStr (lit "Water"))
           (dumps water_recipe) water_recipe); reflexivity.
Defined.

(** The guard of [post_drink] on a [dict]: it looks at [recipe] only. *)
Lemma post_guard (kvs : list (pystr * json)) (db : Database) :
  (if truthy (lit "title")
   then lift (py_not_in (lit "recipe") (JObj kvs))
   else mret false) db
  = (db, Return (negb (dict_has (lit "recipe") kvs))).
Proof. reflexivity. Qed.

(** POST without [recipe] is refused with 422, whether [title] is there
    or not. *)
Lemma post_without_recipe (db : Database) (a : option Token)
    (kvs : list (pystr * json)) :
  authorized a (lit "post:drinks") = true ->
  dict_get (lit "recipe") kvs = None ->
  app (request POST drinks_url a (json_body (JObj kvs))) db = (db, uproccessable).
Proof.
  intros Hauth Hr.
  unfold app, dispatch, request, post_drink. cbn [path method].
  open_gate Hauth.
  erewrite bind_return by reflexivity.
  erewrite bind_return by apply post_guard.
  unfold dict_has. rewrite Hr. reflexivity.
Qed.

(** C1, where the code departs from it: a POST body that has [recipe] but
    no [title] passes the guard, fails on [data['title']] with a
    [KeyError], and is answered with the 500 document, not with 422;
    nothing is stored. *)
Theorem post_without_title (db : Database) (a : option Token)
    (kvs : list (pystr * json)) (r : json) :
  authorized a (lit "post:drinks") = true ->
  dict_get (lit "title") kvs = None ->
  dict_get (lit "recipe") kvs = Some r ->
  dispatch (request POST drinks_url a (json_body (JObj kvs))) db
    = (db, Raise (KeyError (lit "title")))
  /\ app (request POST drinks_url a (json_body (JObj kvs))) db
     = (db, internal_server_error)
  /\ status internal_server_error = 500.
Proof.
  intros Hauth Ht Hr.
  assert (H : dispatch (request POST drinks_url a (json_body (JObj kvs))) db
              = (db, Raise (KeyError (lit "title")))).
  { unfold dispatch, request, post_drink. cbn [path method].
    open_gate Hauth.
    erewrite bind_return by reflexivity.
    erewrite bind_return by apply post_guard.
    unfold dict_has. rewrite Hr. cbn [negb].
    apply bind_raise. unfold lift, py_getitem. by rewrite Ht. }
  split; [exact H|]. split; [|reflexivity].
  unfold app. rewrite H. reflexivity.
Qed.

Lemma post_without_title_witness :
  dispatch (request POST drinks_url (Some manager)
              (json_body (JObj [(lit "recipe", water_recipe)]))) sample_db
    = (sample_db, Raise (KeyError (lit "title")))
  /\ app (request POST drinks_url (Some manager)
            (json_body (JObj [(lit "recipe", water_recipe)]))) sample_db
     = (sample_db, internal_server_error)
  /\ status internal_server_error = 500.
Proof.
  apply (post_without_title sample_db (Some manager)
           [(lit "recipe", water_recipe)] water_recipe); reflexivity.
Defined.

(** Every gated route starts with the gate: when verification raises, the
    view raises the same exception and the database is not touched. *)
Lemma gated_route_refuses (req : Request) (db : Database) (p : pystr) (e : exn) :
  required_permission req = Some p ->
  verify (authorization req) p = Raise e ->
  dispatch req db = (db, Raise e).
Proof.
  unfold required_permission, dispatch.
  destruct (path req), (method req); intros [= <-] Hv;
    unfold get_drinks_detail, post_drink, update_drink, delete_drink;
    by apply gate_closed.
Qed.

(** C4: on every gated route, a token that verifies but lacks the
    required permission is answered with 403 and a request without token
    with 401; in both cases the view raises an [AuthError] and the status
    of the response is the status code that error carries. *)
Theorem gate_403_and_401 (req : Request) (db : Database) (p : pystr) :
  required_permission req = Some p ->
  (authorization req = None ->
   exists e, dispatch req db = (db, Raise (AuthErrorExc e))
             /\ app req db = (db, auth_error e)
             /\ status (app req db).2 = status_code e
             /\ status_code e = 401)
  /\ (forall t, authorization req = Some t ->
      well_formed t = true -> signature_valid t = true ->
      not_expired t = true -> claims_valid t = true ->
      p ∉ permissions t ->
      exists e, dispatch req db = (db, Raise (AuthErrorExc e))
                /\ app req db = (db, auth_error e)
                /\ status (app req db).2 = status_code e
                /\ status_code e = 403).
Proof.
  intros Hp. split.
  - intros Ha. exists (auth_error_of MissingToken).
    assert (H : dispatch req db = (db, Raise (AuthErrorExc (auth_error_of MissingToken)))).
    { apply (gated_route_refuses _ _ p); [done|]. by rewrite Ha. }
    unfold app. rewrite H. done.
  - intros t Ha H1 H2 H3 H4 Hlack. exists (auth_error_of InsufficientPermission).
    assert (H : dispatch req db
                = (db, Raise (AuthErrorExc (auth_error_of InsufficientPermission)))).
    { apply (gated_route_refuses _ _ p); [done|]. rewrite Ha. by apply verify_lacking. }
    unfold app. rewrite H. done.
Qed.

Lemma gate_403_and_401_witness :
  (exists e,
     dispatch (request DELETE (drinks_id_url 1) None malformed_body) sample_db
       = (sample_db, Raise (AuthErrorExc e))
     /\ app (request DELETE (drinks_id_url 1) None malformed_body) sample_db
        = (sample_db, auth_error e)
     /\ status (app (request DELETE (drinks_id_url 1) None malformed_body)
                  sample_db).2 = status_code e
     /\ status_code e = 401)
  /\ (exists e,
        dispatch (request DELETE (drinks_id_url 1) (Some barista) malformed_body)
          sample_db = (sample_db, Raise (AuthErrorExc e))
        /\ app (request DELETE (drinks_id_url 1) (Some barista) malformed_body)
             sample_db = (sample_db, auth_error e)
        /\ status (app (request DELETE (drinks_id_url 1) (Some barista)
                          malformed_body) sample_db).2 = status_code e
        /\ status_code e = 403).
Proof.
  split.
  - apply (gate_403_and_401 (request DELETE (drinks_id_url 1) None malformed_body)
             sample_db (lit "delete:drinks") eq_refl).
    reflexivity.
  - apply (proj2 (gate_403_and_401
                    (request DELETE (drinks_id_url 1) (Some barista) malformed_body)
                    sample_db (lit "delete:drinks") eq_refl) barista);
      try reflexivity.
    apply (bool_decide_unpack _). vm_compute. exact I.
Defined.

(** ** Outcomes of the views *)

Lemma behaves_ret {A} (P : A -> Prop) (a : A) : P a -> behaves P (mret a).
Proof. intros H db. exact H. Qed.

Lemma behaves_bind {A B} (Q : A -> Prop) (P : B -> Prop) (m : M A) (f : A -> M B) :
  behaves Q m -> (forall a, Q a -> behaves P (f a)) -> behaves P (m ≫= f).
Proof.
  intros Hm Hf db. specialize (Hm db). unfold mbind, M_bind.
  destruct (m db) as [db' [a|e]]; cbn in *; [by apply Hf | done].
Qed.

Lemma behaves_weaken {A} (Q P : A -> Prop) (m : M A) :
  behaves Q m -> (forall a, Q a -> P a) -> behaves P m.
Proof.
  intros Hm HQP db. specialize (Hm db). destruct ((m db).2); auto.
Qed.

Lemma behaves_abort {A} (P : A -> Prop) (c : Z) :
  is_Some (errorhandler c) -> behaves P (abort c).
Proof. intros H db. exact H. Qed.

Lemma behaves_lift {A} (r : result A) :
  (forall c, r <> Raise (HTTPException c)) -> behaves (fun _ => True) (lift r).
Proof.
  intros H db. cbn. destruct r as [a|e]; [done|].
  destruct e; cbn; try done. by destruct (H code0).
Qed.

Lemma behaves_try_except {A} (P : A -> Prop) (body : M A) (h : exn -> M A) :
  (forall db, match (body db).2 with Return a => P a | Raise _ => True end) ->
  (forall e, behaves P (h e)) ->
  behaves P (try_except body h).
Proof.
  intros Hb Hh db. specialize (Hb db). unfold try_except.
  destruct (body db) as [db' [a|e]]; cbn in *; [done | apply Hh].
Qed.

Lemma behaves_requires_auth {A} (P : A -> Prop) (p : pystr)
    (f : AuthContext -> M A) (req : Request) :
  (forall ctx, behaves P (f ctx)) -> behaves P (requires_auth p f req).
Proof.
  intros Hf. unfold requires_auth.
  apply (behaves_bind (fun _ => True)); [|auto].
  intros db. cbn. destruct (verify _ _) as [ctx|e] eqn:Hv; [done|].
  by destruct (verify_raises _ _ _ Hv) as [k ->].
Qed.

Lemma behaves_get_json (req : Request) : behaves (fun _ => True) (get_json req).
Proof. intros db. unfold get_json. by destruct (req_body req); cbn; eauto. Qed.

Lemma behaves_query_get (i : Z) : behaves (fun _ => True) (Drink_query_get i).
Proof. intros db. unfold Drink_query_get. by destruct (available db). Qed.

Lemma behaves_insert (t : json) (r : pystr) : behaves (fun _ => True) (Drink_insert t r).
Proof.
  intros db. unfold Drink_insert.
  by destruct (available db), (title_missing t).
Qed.

Lemma behaves_update (d : Drink) : behaves (fun _ => True) (Drink_update d).
Proof. intros db. unfold Drink_update. by destruct (available db). Qed.

Lemma behaves_delete (d : Drink) : behaves (fun _ => True) (Drink_delete d).
Proof. intros db. unfold Drink_delete. by destruct (available db). Qed.

Lemma py_in_no_abort (k : pystr) (data : json) (c : Z) :
  py_in k data <> Raise (HTTPException c).
Proof. by destruct data. Qed.

Lemma py_not_in_no_abort (k : pystr) (data : json) (c : Z) :
  py_not_in k data <> Raise (HTTPException c).
Proof. by destruct data. Qed.

Lemma py_getitem_no_abort (data : json) (k : pystr) (c : Z) :
  py_getitem data k <> Raise (HTTPException c).
Proof. destruct data; try done. cbn. by destruct (dict_get k kvs). Qed.

Lemma long_no_abort (d : Drink) (c : Z) : Drink_long d <> Raise (HTTPException c).
Proof. unfold Drink_long. by destruct (loads (recipe d)). Qed.

Create HintDb views.

#[local] Hint Resolve behaves_ret behaves_abort behaves_lift behaves_requires_auth
  behaves_get_json behaves_query_get behaves_insert behaves_update behaves_delete
  py_in_no_abort py_not_in_no_abort py_getitem_no_abort long_no_abort : views.

Ltac step_view :=
  first
    [ apply behaves_requires_auth; intros ?
    | eapply behaves_bind; [solve [eauto with views] | intros ? _]
    | apply behaves_ret; unfold success_document; solve [eauto]
    | apply behaves_abort; vm_compute; solve [eauto] ].

Lemma try_404_behaves (body : M Response) :
  (forall db, match (body db).2 with
              | Return r => success_document r
              | Raise _ => True
              end) ->
  behaves success_document (try_except body (fun _ => abort 404)).
Proof.
  intros H. apply behaves_try_except; [exact H|].
  intros e. apply behaves_abort. vm_compute. eauto.
Qed.

Lemma listing_body {A} (q : M (list A)) (proj : A -> result json) (db : Database) :
  match ((drinks ← q;
          docs ← lift (mapR proj drinks);
          mret (jsonify [(lit "success", JBool true); (lit "drinks", JArr docs)] 200))
           db).2 with
  | Return r => success_document r
  | Raise _ => True
  end.
Proof.
  unfold mbind, M_bind, lift, mret, M_ret.
  destruct (q db) as [db' [l|e]]; [|done].
  destruct (mapR proj l); [|done].
  cbn. unfold success_document. eauto.
Qed.

Lemma get_drinks_behaves (req : Request) : behaves success_document (get_drinks req).
Proof. apply try_404_behaves. intros db. apply listing_body. Qed.

Lemma get_drinks_detail_behaves (req : Request) :
  behaves success_document (get_drinks_detail req).
Proof.
  unfold get_drinks_detail. step_view.
  apply try_404_behaves. intros db. apply listing_body.
Qed.

Lemma post_drink_behaves (req : Request) : behaves success_document (post_drink req).
Proof.
  unfold post_drink. step_view. step_view.
  eapply (behaves_bind (fun _ => True)).
  { destruct (truthy _); eauto with views. }
  intros [|] _; [step_view|].
  repeat step_view.
Qed.

Lemma update_drink_behaves (i : Z) (req : Request) :
  behaves success_document (update_drink i req).
Proof.
  unfold update_drink. step_view. step_view.
  destruct a as [drink|]; [|step_view].
  step_view. step_view.
  eapply (behaves_bind (fun _ => True)).
  { destruct a0; [|eauto with views].
    eapply behaves_bind; [eauto with views|]. intros; eauto with views. }
  intros drink1 _. step_view.
  eapply (behaves_bind (fun _ => True)).
  { destruct a1; [|eauto with views].
    eapply behaves_bind; [eauto with views|]. intros; eauto with views. }
  intros drink2 _. repeat step_view.
Qed.

Lemma delete_drink_behaves (i : Z) (req : Request) :
  behaves success_document (delete_drink i req).
Proof.
  unfold delete_drink. step_view. step_view.
  destruct a as [drink|]; repeat step_view.
Qed.

(** Every view returns a success document or raises an exception that one
    of the registered handlers renders. *)
Lemma dispatch_behaves (req : Request) : behaves success_document (dispatch req).
Proof.
  unfold dispatch.
  destruct (path req), (method req);
    auto using get_drinks_behaves, get_drinks_detail_behaves, post_drink_behaves,
      update_drink_behaves, delete_drink_behaves;
    apply behaves_abort; vm_compute; eauto.
Qed.

Lemma try_except_raise {A} (body : M A) (h : exn -> M A) (db db' : Database) (e : exn) :
  body db = (db', Raise e) -> try_except body h db = h e db'.
Proof. intros H. unfold try_except. by rewrite H. Qed.


(** C7: on the two read routes a failure of the store operation is caught
    by the view and answered with the 404 document. *)
Theorem read_failure_is_404 (db db' : Database) (e : exn) (a : option Token) (b : Body) :
  Drink_query_order_by_id_all db = (db', Raise e) ->
  app (request GET drinks_url a b) db = (db', not_found)
  /\ (authorized a (lit "get:drinks-detail") = true ->
      app (request GET drinks_detail_url a b) db = (db', not_found))
  /\ status not_found = 404.
Proof.
  intros Hq. split; [|split; [intros Hauth|reflexivity]].
  - unfold app, dispatch, request, get_drinks. cbn [path method].
    erewrite try_except_raise; [reflexivity|].
    by apply bind_raise.
  - unfold app, dispatch, request, get_drinks_detail. cbn [path method].
    open_gate Hauth.
    erewrite try_except_raise; [reflexivity|].
    by apply bind_raise.
Qed.

Lemma read_failure_is_404_witness :
  app (request GET drinks_url None malformed_body) offline_db = (offline_db, not_found)
  /\ app (request GET drinks_detail_url (Some barista) malformed_body) offline_db
     = (offline_db, not_found)
  /\ status not_found = 404.
Proof.
  pose proof (read_failure_is_404 offline_db offline_db (StoreError Unavailable)
                None malformed_body eq_refl) as [H1 _].
  pose proof (read_failure_is_404 offline_db offline_db (StoreError Unavailable)
                (Some barista) malformed_body eq_refl) as [_ [H2 H3]].
  split; [exact H1|]. split; [apply H2; reflexivity | exact H3].
Defined.

Lemma errorhandler_registered (c : Z) :
  is_Some (errorhandler c) <-> c ∈ [400; 401; 404; 405; 422; 500].
Proof.
  unfold errorhandler. rewrite !elem_of_cons, elem_of_nil.
  repeat match goal with
         | |- context [Z.eqb c ?k] =>
             destruct (Z.eqb_spec c k) as [->|?]; [split; eauto 10|]
         end.
  split; [by intros [? ?] | intros Hc; lia].
Qed.

Lemma errorhandler_envelope (c : Z) (r : Response) :
  errorhandler c = Some r -> status r = c /\ error_envelope r.
Proof.
  unfold errorhandler, error_envelope.
  repeat match goal with
         | |- context [Z.eqb c ?k] =>
             destruct (Z.eqb_spec c k) as [->|?];
             [intros [= <-]; split; [reflexivity | eexists; reflexivity] |]
         end.
  discriminate.
Qed.

Lemma handle_exception_envelope (e : exn) :
  rendered e -> error_envelope (handle_exception e).
Proof.
  destruct e; cbn; intros H; try (eexists; reflexivity).
  destruct H as [r Hr]. rewrite Hr. by apply (errorhandler_envelope code0).
Qed.

(** C8: the handlers registered for 400, 401, 404, 405, 422 and 500 each
    answer with the document {success: false, error: code, message: text}
    under that very status; an [AuthError] is answered in the same shape
    under the status code it carries; whenever a view raises, the response
    is such a document; and the document of every response has a boolean
    under [success]. *)
Theorem error_documents_uniform :
  (forall c, c ∈ [400; 401; 404; 405; 422; 500] ->
     exists r, errorhandler c = Some r /\ status r = c /\ error_envelope r)
  /\ (forall e : AuthError,
        status (auth_error e) = status_code e /\ error_envelope (auth_error e))
  /\ (forall req db db' e,
        dispatch req db = (db', Raise e) -> error_envelope (app req db).2)
  /\ (forall req db,
        exists d (flag : bool),
          body (app req db).2 = json_doc d
          /\ dict_get (lit "success") d = Some (JBool flag)).
Proof.
  split; [|split; [|split]].
  - intros c Hc. apply errorhandler_registered in Hc as [r Hr].
    exists r. split; [done|]. by apply errorhandler_envelope.
  - intros e. split; [reflexivity|]. eexists. reflexivity.
  - intros req db db' e H. pose proof (dispatch_behaves req db) as Hb.
    unfold app. rewrite H in *. cbn in *. by apply handle_exception_envelope.
  - intros req db. pose proof (dispatch_behaves req db) as Hb.
    unfold app. destruct (dispatch req db) as [db' [r|e]]; cbn in *.
    + destruct Hb as (k & v & ->). by eexists _, true.
    + destruct (handle_exception_envelope e Hb) as [m ->]. by eexists _, false.
Qed.

(** ** The listing *)

#[local] Instance id_le_trans : Transitive id_le.
Proof. intros a b c. unfold id_le. lia. Qed.

#[local] Instance id_le_total : Total id_le.
Proof. intros a b. unfold id_le. lia. Qed.

Lemma to_drink_ids (l : list (Z * (json * pystr))) : id <$> (to_drink <$> l) = l.*1.
Proof. induction l as [|[i [t r]] l IH]; cbn; [done | by rewrite IH]. Qed.

Lemma sorted_strictly (l : list Drink) :
  StronglySorted id_le l -> NoDup (id <$> l) ->
  StronglySorted (fun a b => id a < id b) l.
Proof.
  induction 1 as [|d l Hl IH Hd]; cbn; intros Hnd; [constructor|].
  apply NoDup_cons in Hnd as [Hnotin Hnd].
  constructor; [by apply IH|].
  rewrite Forall_forall in Hd |- *. intros d' Hd'.
  specialize (Hd d' Hd'). unfold id_le in Hd.
  assert (id d <> id d'); [|lia].
  intros Heq. apply Hnotin. rewrite Heq. by apply list_elem_of_fmap_2.
Qed.

Lemma mapR_Forall2 {A B} (f : A -> result B) (l : list A) (out : list B) :
  mapR f l = Return out -> Forall2 (fun x y => f x = Return y) l out.
Proof.
  revert out. induction l as [|x l IH]; cbn; intros out.
  - intros [= <-]. constructor.
  - destruct (f x) as [y|] eqn:Hy; [|discriminate].
    destruct (mapR f l) as [ys|]; [|discriminate].
    intros [= <-]. constructor; [done | by apply IH].
Qed.

(** The listing of an answering store: every row, once, by ascending id. *)
Lemma query_all_sorted (db : Database) :
  let drinks := merge_sort id_le (to_drink <$> map_to_list (rows db)) in
  StronglySorted (fun a b => id a < id b) drinks
  /\ (forall d, d ∈ drinks <-> rows db !! id d = Some (title d, recipe d)).
Proof.
  intros drinks. split.
  - apply sorted_strictly; [apply (StronglySorted_merge_sort _)|].
    subst drinks. rewrite merge_sort_Permutation, to_drink_ids.
    apply NoDup_fst_map_to_list.
  - intros d. subst drinks. rewrite merge_sort_Permutation, list_elem_of_fmap.
    split.
    + intros ([i [t r]] & -> & Hin). by apply elem_of_map_to_list in Hin.
    + intros H. exists (id d, (title d, recipe d)). split; [by destruct d|].
      by apply elem_of_map_to_list.
Qed.

(** C6: when the store answers, the list operation behind GET /drinks and
    GET /drinks-detail returns every row of the table, and only those, by
    strictly ascending id, and the two views project that sequence in
    that order. *)
Theorem listing_by_ascending_id (db : Database) (a : option Token) (b : Body) :
  available db = true ->
  exists drinks,
    Drink_query_order_by_id_all db = (db, Return drinks)
    /\ StronglySorted (fun x y => id x < id y) drinks
    /\ (forall d, d ∈ drinks <-> rows db !! id d = Some (title d, recipe d))
    /\ (forall docs, mapR Drink_short drinks = Return docs ->
          Forall2 (fun d doc => Drink_short d = Return doc) drinks docs
          /\ app (request GET drinks_url a b) db
             = (db, jsonify [(lit "success", JBool true); (lit "drinks", JArr docs)] 200))
    /\ (forall docs, authorized a (lit "get:drinks-detail") = true ->
          mapR Drink_long drinks = Return docs ->
          Forall2 (fun d doc => Drink_long d = Return doc) drinks docs
          /\ app (request GET drinks_detail_url a b) db
             = (db, jsonify [(lit "success", JBool true); (lit "drinks", JArr docs)] 200)).
Proof.
  intros Hav. eexists. split; [by apply query_all_available|].
  destruct (query_all_sorted db) as [Hsorted Hall].
  split; [exact Hsorted|]. split; [exact Hall|]. split.
  - intros docs Hdocs. split; [by apply mapR_Forall2|].
    unfold app, dispatch, request, get_drinks, try_except. cbn [path method].
    erewrite bind_return by (by apply query_all_available).
    erewrite bind_return by (unfold lift; by rewrite Hdocs).
    reflexivity.
  - intros docs Hauth Hdocs. split; [by apply mapR_Forall2|].
    unfold app, dispatch, request, get_drinks_detail, try_except. cbn [path method].
    open_gate Hauth.
    erewrite bind_return by (by apply query_all_available).
    erewrite bind_return by (unfold lift; by rewrite Hdocs).
    reflexivity.
Qed.

Lemma listing_by_ascending_id_witness :
  exists drinks,
    Drink_query_order_by_id_all sample_db = (sample_db, Return drinks)
    /\ id <$> drinks = [1; 2]
    /\ StronglySorted (fun x y => id x < id y) drinks
    /\ (forall d, d ∈ drinks <-> rows sample_db !! id d = Some (title d, recipe d))
    /\ app (request GET drinks_detail_url (Some barista) malformed_body) sample_db
       = (sample_db,
          jsonify [(lit "success", JBool true);
                   (lit "drinks",
                    JArr [JObj [(lit "id", JNum 1); (lit "title", JStr (lit "Water"));
                                (lit "recipe", water_recipe)];
                          JObj [(lit "id", JNum 2); (lit "title", JStr (lit "Latte"));
                                (lit "recipe", JArr [])]])] 200).
Proof.
  destruct (listing_by_ascending_id sample_db (Some barista) malformed_body eq_refl)
    as (drinks & Hq & Hsorted & Hall & _ & Hdetail).
  exists drinks. injection Hq as <-.
  split; [reflexivity|]. split; [reflexivity|].
  split; [exact Hsorted|]. split; [exact Hall|].
  apply (Hdetail _ eq_refl). reflexivity.
Defined.

(** ** The codec: encoding then decoding *)

Section Codec.
Local Open Scope N_scope.

Ltac dlia := zify; Z.to_euclidean_division_equations; lia.

(** Decides the comparisons of a goal by arithmetic. *)
Ltac tests :=
  repeat match goal with
         | |- context [N.eqb ?a ?b] => destruct (N.eqb_spec a b); try lia
         | |- context [N.leb ?a ?b] => destruct (N.leb_spec a b); try lia
         | |- context [N.ltb ?a ?b] => destruct (N.ltb_spec a b); try lia
         end; cbn [andb orb negb].

Lemma hex_value_digit (d : N) : d < 16 -> hex_value (hex_digit d) = Some d.
Proof.
  intros H. unfold hex_value, hex_digit.
  destruct (N.ltb_spec d 10); tests; f_equal; lia.
Qed.

Lemma decode_hex4_hex4 (n : N) (rest : pystr) :
  n < 65536 ->
  match hex4 n ++ rest with
  | h1 :: h2 :: h3 :: h4 :: t => decode_hex4 h1 h2 h3 h4 = Some n /\ t = rest
  | _ => False
  end.
Proof.
  intros H. cbn. unfold decode_hex4.
  rewrite !hex_value_digit by dlia. split; [f_equal; dlia | done].
Qed.

Lemma lor_add (a x : N) : x < 1024 -> a mod 1024 = 0 -> N.lor a x = a + x.
Proof.
  intros Hx Ha.
  assert (Hland : N.land a x = 0).
  { rewrite <- (N.mod_small x 1024) by done.
    change 1024 with (2 ^ 10) in *. rewrite <- N.land_ones.
    rewrite (N.land_comm x), N.land_assoc, N.land_ones, Ha. apply N.land_0_l. }
  rewrite <- N.lxor_lor by done. symmetry. by apply N.add_nocarry_lxor.
Qed.

(** The two halves of a surrogate pair, as numbers. *)
Lemma surrogates_of (n : N) :
  N.lor 55296 (N.land (N.shiftr n 10) 1023) = 55296 + (n / 1024) mod 1024
  /\ N.lor 56320 (N.land n 1023) = 56320 + n mod 1024.
Proof.
  change 1023 with (N.ones 10). rewrite !N.land_ones, N.shiftr_div_pow2.
  change (2 ^ 10) with 1024.
  rewrite !lor_add by (done || dlia). done.
Qed.

Lemma combine_surrogates (h l : N) :
  h < 1024 -> l < 1024 ->
  N.lor (N.shiftl h 10) l = h * 1024 + l.
Proof.
  intros Hh Hl. rewrite N.shiftl_mul_pow2. change (2 ^ 10) with 1024.
  rewrite lor_add; [done | done | apply N.Div0.mod_mul].
Qed.

Lemma escape_cons (c : N) (s : pystr) : escape (c :: s) = escape_char c ++ escape s.
Proof. reflexivity. Qed.

Lemma scanstring_plain (c : N) (t : pystr) :
  c <> 34 -> c <> 92 -> 32 <= c ->
  scanstring (c :: t)
  = match scanstring t with
    | Some (r, rest) => Some (c :: r, rest)
    | None => None
    end.
Proof. intros. cbn [scanstring]. tests. reflexivity. Qed.

Lemma scanstring_short (e ch : N) (t : pystr) :
  e <> 117 -> backslash e = Some ch ->
  scanstring (92 :: e :: t)
  = match scanstring t with
    | Some (r, rest) => Some (ch :: r, rest)
    | None => None
    end.
Proof. intros He Hb. cbn [scanstring]. tests. rewrite Hb. reflexivity. Qed.

(** A [\uXXXX] escape that is not the first half of a pair decodes to
    its own character: either it is no high surrogate, or what follows is
    the encoding of a string that does not begin with a low surrogate. *)
Lemma scanstring_u (uni : N) (s : pystr) (rest : pystr) :
  uni < 65536 ->
  is_high uni && match s with c :: _ => is_low c | [] => false end = false ->
  scanstring (92 :: 117 :: hex4 uni ++ escape s ++ 34 :: rest)
  = match scanstring (escape s ++ 34 :: rest) with
    | Some (r, rest') => Some (uni :: r, rest')
    | None => None
    end.
Proof.
  intros Huni Hpair.
  pose proof (decode_hex4_hex4 uni (escape s ++ 34 :: rest) Huni) as Hdec.
  destruct (hex4 uni ++ escape s ++ 34 :: rest) as [|h1 [|h2 [|h3 [|h4 t2]]]] eqn:Ht; try done.
  destruct Hdec as [Hdec ->].
  cbn [scanstring]. cbn [N.eqb Pos.eqb]. rewrite Hdec.
  fold (is_high uni).
  destruct (is_high uni) eqn:Hhigh; [|reflexivity].
  cbn [andb] in Hpair.
  generalize (scanstring (escape s ++ 34 :: rest)). intros single.
  destruct s as [|c s].
  { cbn. destruct rest; reflexivity. }
  rewrite escape_cons, <- app_assoc.
  generalize (escape s ++ 34 :: rest). intros tail.
  unfold escape_char.
  repeat match goal with
         | |- context [N.eqb c ?k] =>
             destruct (N.eqb_spec c k) as [->|?]; [reflexivity|]
         end.
  destruct ((32 <=? c) && (c <=? 126)) eqn:Hprintable.
  { cbn. destruct tail; [reflexivity|]. tests; reflexivity. }
  destruct (N.ltb_spec c 65536) as [Hc|Hc].
  - pose proof (decode_hex4_hex4 c tail Hc) as Hdec'.
    change ((92 :: 117 :: hex4 c) ++ tail) with (92 :: 117 :: (hex4 c ++ tail)).
    cbn [N.eqb Pos.eqb andb].
    destruct (hex4 c ++ tail) as [|g1 [|g2 [|g3 [|g4 t4]]]]; try done.
    destruct Hdec' as [-> ->]. fold (is_low c). by rewrite Hpair.
  - destruct (surrogates_of (c - 65536)) as [-> _].
    set (s1 := 55296 + (c - 65536) / 1024 mod 1024).
    assert (Hs1 : s1 < 65536) by (subst s1; dlia).
    rewrite <- app_assoc.
    change ((92 :: 117 :: hex4 s1) ++ ?t) with (92 :: 117 :: (hex4 s1 ++ t)).
    cbn [N.eqb Pos.eqb andb].
    match goal with
    | |- context [hex4 s1 ++ ?t] =>
        pose proof (decode_hex4_hex4 s1 t Hs1) as Hdec';
        destruct (hex4 s1 ++ t) as [|g1 [|g2 [|g3 [|g4 t4]]]]; try done
    end.
    destruct Hdec' as [-> ->].
    replace ((56320 <=? s1) && (s1 <=? 57343)) with false; [reflexivity|].
    subst s1. symmetry. apply andb_false_iff. left. apply N.leb_gt. dlia.
Qed.

(** A character above the Basic Multilingual Plane is written as a
    surrogate pair and read back as one character. *)
Lemma scanstring_pair (c : N) (tail : pystr) :
  65536 <= c -> c < 1114112 ->
  scanstring (escape_char c ++ tail)
  = match scanstring tail with
    | Some (r, rest') => Some (c :: r, rest')
    | None => None
    end.
Proof.
  intros Hlo Hhi. unfold escape_char. tests.
  destruct (surrogates_of (c - 65536)) as [-> ->].
  set (s1 := 55296 + (c - 65536) / 1024 mod 1024).
  set (s2 := 56320 + (c - 65536) mod 1024).
  assert (Hs1 : s1 < 65536) by (subst s1; dlia).
  assert (Hs2 : s2 < 65536) by (subst s2; dlia).
  rewrite <- app_assoc.
  change ((92 :: 117 :: hex4 s1) ++ ?t) with (92 :: 117 :: (hex4 s1 ++ t)).
  change ((92 :: 117 :: hex4 s2) ++ ?t) with (92 :: 117 :: (hex4 s2 ++ t)).
  pose proof (decode_hex4_hex4 s1 (92 :: 117 :: hex4 s2 ++ tail) Hs1) as Hd1.
  pose proof (decode_hex4_hex4 s2 tail Hs2) as Hd2.
  destruct (hex4 s1 ++ _) as [|h1 [|h2 [|h3 [|h4 t2]]]]; try done.
  destruct Hd1 as [Hd1 ->].
  destruct (hex4 s2 ++ tail) as [|g1 [|g2 [|g3 [|g4 t4]]]]; try done.
  destruct Hd2 as [Hd2 ->].
  cbn [scanstring]. cbn [N.eqb Pos.eqb andb]. rewrite Hd1, Hd2.
  replace ((55296 <=? s1) && (s1 <=? 56319)) with true
    by (symmetry; apply andb_true_iff; split; apply N.leb_le; subst s1; dlia).
  replace ((56320 <=? s2) && (s2 <=? 57343)) with true
    by (symmetry; apply andb_true_iff; split; apply N.leb_le; subst s2; dlia).
  replace (65536 + N.lor (N.shiftl (s1 - 55296) 10) (s2 - 56320)) with c; [reflexivity|].
  rewrite combine_surrogates by (subst s1 s2; dlia). subst s1 s2. dlia.
Qed.

(** [py_scanstring] reads back what [py_encode_basestring_ascii] wrote. *)
Lemma scanstring_escape (s rest : pystr) :
  valid_str s = true -> scanstring (escape s ++ 34 :: rest) = Some (s, rest).
Proof.
  induction s as [|c s IH]; [reflexivity|].
  cbn [valid_str]. rewrite !andb_true_iff, negb_true_iff, N.ltb_lt.
  intros [[Hc Hpair] Hs]. specialize (IH Hs).
  rewrite escape_cons, <- app_assoc.
  destruct (N.ltb_spec c 65536) as [Hbmp|Hbmp];
    [|rewrite scanstring_pair, IH by done; reflexivity].
  unfold escape_char.
  repeat match goal with
         | |- context [N.eqb c ?k] =>
             destruct (N.eqb_spec c k) as [->|?];
             [change ([92; ?e] ++ ?t) with (92 :: e :: t);
              erewrite scanstring_short by (done || reflexivity);
              rewrite IH; reflexivity|]
         end.
  destruct ((32 <=? c) && (c <=? 126)) eqn:Hprintable.
  - apply andb_true_iff in Hprintable as [H32 _]. apply N.leb_le in H32.
    change ([c] ++ ?t) with (c :: t).
    rewrite scanstring_plain, IH by done. reflexivity.
  - destruct (N.ltb_spec c 65536); [|lia].
    change ((92 :: 117 :: hex4 c) ++ ?t) with (92 :: 117 :: hex4 c ++ t).
    rewrite scanstring_u, IH by done. reflexivity.
Qed.

(** *** Integers *)

Lemma digits_fuel_spec (f : nat) (n : N) (acc : pystr) :
  n < 2 ^ N.of_nat (S f) ->
  exists d ds,
    digits_fuel (S f) n acc = d :: ds ++ acc
    /\ is_digit d = true
    /\ Forall (fun c => is_digit c = true) ds
    /\ (0 < n -> d <> 48)
    /\ fold_left (fun a c => a * 10 + (c - 48)) ds (d - 48) = n.
Proof.
  revert n acc. induction f as [|f IH]; intros n acc Hn;
    cbn [digits_fuel]; destruct (N.ltb_spec n 10) as [Hsmall|Hbig];
    try (exists (48 + n mod 10), []; cbn; unfold is_digit;
         repeat split; [tests; (reflexivity || dlia) | constructor | dlia | dlia]).
  rewrite Nat2N.inj_succ, N.pow_succ_r' in Hn.
  destruct (IH (n / 10) ((48 + n mod 10) :: acc))
    as (d & ds & Heq & Hd & Hds & Hnz & Hval); [dlia|].
  cbn [digits_fuel] in Heq. rewrite Heq.
  exists d, (ds ++ [48 + n mod 10]). rewrite <- app_assoc. cbn.
  repeat split; [done| |intros _; apply Hnz; dlia|].
  - apply Forall_app. split; [done|]. constructor; [|constructor].
    unfold is_digit. tests; (reflexivity || dlia).
  - rewrite fold_left_app, Hval. cbn. dlia.
Qed.

Lemma str_of_N_spec (p : positive) :
  exists d ds,
    str_of_N (Npos p) = d :: ds
    /\ is_digit d = true
    /\ Forall (fun c => is_digit c = true) ds
    /\ d <> 48
    /\ fold_left (fun a c => a * 10 + (c - 48)) ds (d - 48) = Npos p.
Proof.
  unfold str_of_N.
  destruct (digits_fuel_spec (N.to_nat (N.log2 (Npos p))) (Npos p) [])
    as (d & ds & Heq & Hd & Hds & Hnz & Hval).
  - rewrite Nat2N.inj_succ, N2Nat.id. apply N.log2_spec. lia.
  - exists d, ds. rewrite Heq, app_nil_r. repeat split; try done. apply Hnz. lia.
Qed.

Lemma scan_digits_app (ds rest : pystr) (a : N) :
  Forall (fun c => is_digit c = true) ds ->
  match rest with c :: _ => is_digit c = false | [] => True end ->
  scan_digits a (ds ++ rest) = (fold_left (fun a c => a * 10 + (c - 48)) ds a, rest).
Proof.
  intros Hds Hrest. revert a. induction Hds as [|d ds Hd _ IH]; intros a; cbn.
  - destruct rest as [|c rest]; [done|]. cbn. by rewrite Hrest.
  - rewrite Hd. apply IH.
Qed.

Lemma follows_value_cases (rest : pystr) :
  follows_value rest = true ->
  match rest with
  | [] => True
  | c :: _ => c = 44 \/ c = 93 \/ c = 125
  end.
Proof.
  destruct rest as [|c rest]; [done|]. cbn.
  rewrite !orb_true_iff, !N.eqb_eq. tauto.
Qed.

(** The number pattern reads back the decimal text of an [int]. *)
Lemma scan_int_str_of_Z (z : Z) (rest : pystr) :
  follows_value rest = true ->
  scan_int (str_of_Z z ++ rest) = Some (z, rest).
Proof.
  intros Hrest%follows_value_cases.
  assert (Hnd : match rest with c :: _ => is_digit c = false | [] => True end).
  { destruct rest as [|c rest]; [done|]. unfold is_digit. tests; lia. }
  assert (Hfl : match rest with
                | c :: _ => (c =? 46) || (c =? 101) || (c =? 69)
                | [] => false
                end = false).
  { destruct rest as [|c rest]; [done|]. tests; lia. }
  destruct z as [|p|p]; cbn [str_of_Z].
  - cbn. by rewrite Hfl.
  - destruct (str_of_N_spec p) as (d & ds & -> & Hd & Hds & Hnz & Hval).
    unfold scan_int. change ((d :: ds) ++ rest) with (d :: (ds ++ rest)).
    assert (d <> 45) by (unfold is_digit in Hd; intros ->; done).
    cbv beta iota.
    rewrite (proj2 (N.eqb_neq d 45)), (proj2 (N.eqb_neq d 48)) by done.
    rewrite Hd, scan_digits_app, Hval, Hfl by done. reflexivity.
  - destruct (str_of_N_spec p) as (d & ds & -> & Hd & Hds & Hnz & Hval).
    unfold scan_int.
    change ((45 :: d :: ds) ++ rest) with (45 :: d :: (ds ++ rest)).
    cbv beta iota. cbn [N.eqb Pos.eqb].
    rewrite (proj2 (N.eqb_neq d 48)) by done.
    rewrite Hd, scan_digits_app, Hval, Hfl by done. reflexivity.
Qed.

(** *** Values *)

Lemma str_of_Z_head (z : Z) :
  exists d ds, str_of_Z z = d :: ds /\ (is_digit d = true \/ d = 45).
Proof.
  destruct z as [|p|p]; cbn [str_of_Z].
  - exists 48, []. auto.
  - destruct (str_of_N_spec p) as (d & ds & -> & Hd & _). eauto.
  - eauto.
Qed.

Lemma dumps_head (v : json) : starts_value (dumps v).
Proof.
  destruct v as [|[|]|z|s|l|kvs]; try (vm_compute; repeat split; discriminate).
  - change (dumps (JNum z)) with (str_of_Z z).
    destruct (str_of_Z_head z) as (d & ds & -> & [Hd| ->]);
      [|vm_compute; repeat split; discriminate].
    unfold is_digit in Hd. apply andb_true_iff in Hd as [H1 H2].
    apply N.leb_le in H1, H2. cbn. unfold is_ws. repeat split; tests; lia.
Qed.
Lemma skip_ws_starts (t : pystr) : starts_value t -> skip_ws t = t.
Proof. destruct t as [|c t]; [done|]. intros [H _]. cbn. by rewrite H. Qed.

Lemma starts_value_app (t u : pystr) : starts_value t -> starts_value (t ++ u).
Proof. by destruct t. Qed.

Lemma join_comma_cons (p : pystr) (ps : list pystr) :
  join_comma (p :: ps)
  = p ++ match ps with [] => [] | _ :: _ => 44 :: 32 :: join_comma ps end.
Proof. destruct ps; cbn [join_comma]; [by rewrite app_nil_r | done]. Qed.

Lemma existsb_str_eqb_false (k : pystr) (ks : list pystr) :
  existsb (str_eqb k) ks = false <-> k ∉ ks.
Proof.
  rewrite <- existsb_str_eqb. destruct (existsb (str_eqb k) ks); split; done.
Qed.

Lemma dict_set_fresh (k : pystr) (v : json) (d : list (pystr * json)) :
  k ∉ d.*1 -> dict_set k v d = d ++ [(k, v)].
Proof.
  induction d as [|[k' v'] d IH]; cbn; [done|].
  rewrite not_elem_of_cons. intros [Hne Hnotin].
  destruct (str_eqb k k') eqn:E; [by apply str_eqb_eq in E|].
  by rewrite IH.
Qed.

Lemma dict_of_pairs_distinct (kvs : list (pystr * json)) :
  distinct (List.map fst kvs) = true -> dict_of_pairs kvs = kvs.
Proof.
  unfold dict_of_pairs.
  enough (H : forall acc,
             distinct (List.map fst kvs) = true ->
             (forall k, k ∈ kvs.*1 -> k ∉ acc.*1) ->
             fold_left (fun d kv => dict_set (fst kv) (snd kv) d) kvs acc = acc ++ kvs).
  { intros Hd. apply (H [] Hd). intros k _. apply not_elem_of_nil. }
  induction kvs as [|[k v] kvs IH]; intros acc Hd Hfresh; cbn.
  { by rewrite app_nil_r. }
  cbn in Hd. apply andb_true_iff in Hd as [Hk Hd].
  apply negb_true_iff, existsb_str_eqb_false in Hk.
  rewrite dict_set_fresh by (apply Hfresh; cbn; apply elem_of_cons; by left).
  rewrite IH, <- app_assoc; [done | done |].
  intros k' Hk'. rewrite fmap_app, elem_of_app. cbn. rewrite list_elem_of_singleton.
  intros [Hin | ->]; [|done].
  by apply (Hfresh k'); [apply elem_of_cons; right|].
Qed.

(** The equations of the scanner. *)
Lemma scan_once_string (f : nat) (t : pystr) :
  scan_once (S f) (34 :: t)
  = match scanstring t with
    | Some (str, rest) => Some (JStr str, rest)
    | None => None
    end.
Proof. reflexivity. Qed.

Lemma scan_once_array (f : nat) (t : pystr) :
  scan_once (S f) (91 :: t)
  = match skip_ws t with
    | c' :: r =>
        if c' =? 93 then Some (JArr [], r)
        else match scan_elements f (skip_ws t) with
             | Some (vs, rest) => Some (JArr vs, rest)
             | None => None
             end
    | [] => None
    end.
Proof. reflexivity. Qed.

Lemma scan_once_object (f : nat) (t : pystr) :
  scan_once (S f) (123 :: t)
  = match skip_ws t with
    | c' :: r =>
        if c' =? 125 then Some (JObj [], r)
        else if c' =? 34 then
          match scan_members f r with
          | Some (pairs, rest) => Some (JObj (dict_of_pairs pairs), rest)
          | None => None
          end
        else None
    | [] => None
    end.
Proof. reflexivity. Qed.

Lemma scan_elements_eq (f : nat) (s : pystr) :
  scan_elements (S f) s
  = match scan_once f s with
    | None => None
    | Some (v, rest) =>
        match skip_ws rest with
        | c :: r =>
            if c =? 93 then Some ([v], r)
            else if c =? 44 then
              match scan_elements f (skip_ws r) with
              | Some (vs, rest') => Some (v :: vs, rest')
              | None => None
              end
            else None
        | [] => None
        end
    end.
Proof. reflexivity. Qed.

Lemma scan_members_eq (f : nat) (s : pystr) :
  scan_members (S f) s
  = match scanstring s with
    | None => None
    | Some (key, rest) =>
        match skip_ws rest with
        | c :: r =>
            if c =? 58 then
              match scan_once f (skip_ws r) with
              | None => None
              | Some (v, rest1) =>
                  match skip_ws rest1 with
                  | c1 :: r1 =>
                      if c1 =? 125 then Some ([(key, v)], r1)
                      else if c1 =? 44 then
                        match skip_ws r1 with
                        | q :: r2 =>
                            if q =? 34 then
                              match scan_members f r2 with
                              | Some (ps, rest') => Some ((key, v) :: ps, rest')
                              | None => None
                              end
                            else None
                        | [] => None
                        end
                      else None
                  | [] => None
                  end
              end
            else None
        | [] => None
        end
    end.
Proof. reflexivity. Qed.

Lemma scan_once_number (f : nat) (z : Z) (rest : pystr) :
  follows_value rest = true ->
  scan_once (S f) (str_of_Z z ++ rest) = Some (JNum z, rest).
Proof.
  intros Hrest. pose proof (scan_int_str_of_Z z rest Hrest) as Hint.
  destruct (str_of_Z_head z) as (d & ds & Heq & Hd). rewrite Heq in *.
  change ((d :: ds) ++ rest) with (d :: (ds ++ rest)) in *.
  assert (Hrange : d = 45 \/ (48 <= d /\ d <= 57)).
  { destruct Hd as [Hd| ->]; [right|by left].
    unfold is_digit in Hd. apply andb_true_iff in Hd as [H1 H2].
    by apply N.leb_le in H1, H2. }
  cbn [scan_once]. cbv beta iota.
  rewrite (proj2 (N.eqb_neq d 34)), (proj2 (N.eqb_neq d 123)),
    (proj2 (N.eqb_neq d 91)) by lia.
  assert (Hlit : forall (p : string) (c : N) (p' : pystr),
             lit p = c :: p' -> c <> d ->
             strip_prefix (lit p) (d :: ds ++ rest) = None).
  { intros p c p' -> Hne. cbn [strip_prefix].
    by rewrite (proj2 (N.eqb_neq c d)). }
  rewrite (Hlit "null"%string 110 _ eq_refl), (Hlit "true"%string 116 _ eq_refl),
    (Hlit "false"%string 102 _ eq_refl) by lia.
  by rewrite Hint.
Qed.

Ltac norm_app :=
  repeat (rewrite <- app_assoc || rewrite <- app_comm_cons || rewrite app_nil_l).

Lemma dumps_array (l : list json) :
  dumps (JArr l) = 91 :: join_comma (List.map dumps l) ++ [93].
Proof. reflexivity. Qed.

Lemma dumps_object (kvs : list (pystr * json)) :
  dumps (JObj kvs) = 123 :: join_comma (List.map member_text kvs) ++ [125].
Proof. reflexivity. Qed.

Lemma members_start (kv : pystr * json) (kvs : list (pystr * json)) :
  join_comma (List.map member_text (kv :: kvs))
  = 34 :: escape (fst kv) ++ 34 :: 58 :: 32 :: dumps (snd kv)
       ++ match kvs with
          | [] => []
          | _ :: _ => 44 :: 32 :: join_comma (List.map member_text kvs)
          end.
Proof.
  cbn [List.map]. rewrite join_comma_cons. unfold member_text at 1, encode_str.
  norm_app. by destruct kvs.
Qed.

(** The scanner reads back what [dumps] wrote, given fuel for the length
    of the text: a value, the elements of an array up to the closing
    bracket, the members of an object up to the closing brace. *)
Lemma scan_dumps (f : nat) :
  (forall v rest,
     (length (dumps v) <= f)%nat -> wf_json v = true -> follows_value rest = true ->
     scan_once f (dumps v ++ rest) = Some (v, rest))
  /\ (forall l rest,
        l <> [] -> (length (join_comma (List.map dumps l)) < f)%nat ->
        forallb wf_json l = true ->
        scan_elements f (join_comma (List.map dumps l) ++ 93 :: rest) = Some (l, rest))
  /\ (forall kvs t rest,
        join_comma (List.map member_text kvs) = 34 :: t -> (length t < f)%nat ->
        forallb (fun kv => valid_str (fst kv) && wf_json (snd kv)) kvs = true ->
        scan_members f (t ++ 125 :: rest) = Some (kvs, rest)).
Proof.
  induction f as [|f (IHv & IHl & IHm)].
  { split; [|split]; [|intros; lia|intros; lia].
    intros v rest Hlen. pose proof (dumps_head v) as Hh.
    destruct (dumps v); [done | cbn in Hlen; lia]. }
  split; [|split].
  - intros v rest Hlen Hwf Hrest. destruct v as [|[|]|z|s|l|kvs].
    + reflexivity.
    + reflexivity.
    + reflexivity.
    + by apply scan_once_number.
    + change (dumps (JStr s)) with (34 :: escape s ++ [34]). norm_app.
      rewrite scan_once_string, scanstring_escape by done. reflexivity.
    + destruct l as [|v l]; [reflexivity|].
      rewrite dumps_array in *. norm_app. rewrite scan_once_array.
      assert (Hstart : starts_value (join_comma (List.map dumps (v :: l)) ++ 93 :: rest)).
      { cbn [List.map]. rewrite join_comma_cons. norm_app.
        apply starts_value_app, dumps_head. }
      rewrite (skip_ws_starts _ Hstart).
      destruct (join_comma _ ++ 93 :: rest) as [|c' r] eqn:E; [done|].
      destruct Hstart as (_ & H93 & _). rewrite (proj2 (N.eqb_neq c' 93)) by done.
      rewrite <- E, IHl; [done | done | | done].
      cbn [length] in Hlen. rewrite length_app in Hlen. cbn [length] in Hlen. lia.
    + destruct kvs as [|kv kvs]; [reflexivity|].
      rewrite dumps_object in *.
      pose proof (members_start kv kvs) as Ht.
      match type of Ht with _ = 34 :: ?u => set (t := u) in Ht end.
      rewrite Ht in *.
      cbn [wf_json] in Hwf. apply andb_true_iff in Hwf as [Hdistinct Hwf].
      norm_app. rewrite scan_once_object. cbn [skip_ws is_ws N.eqb Pos.eqb orb].
      rewrite (IHm (kv :: kvs) t rest); [by rewrite dict_of_pairs_distinct|done| |done].
      cbn [length] in Hlen. rewrite length_app in Hlen. cbn [length] in Hlen. lia.
  - intros l rest Hne Hlen Hwf. destruct l as [|v l]; [done|].
    cbn [forallb] in Hwf. apply andb_true_iff in Hwf as [Hv Hl].
    pose proof (dumps_head v) as Hhead.
    rewrite scan_elements_eq. destruct l as [|v' l].
    + cbn [List.map join_comma] in *.
      rewrite IHv; [reflexivity | lia | done | reflexivity].
    + set (l' := v' :: l) in *.
      assert (Hj : join_comma (List.map dumps (v :: l'))
                   = dumps v ++ 44 :: 32 :: join_comma (List.map dumps l'))
        by reflexivity.
      rewrite Hj in *. rewrite length_app in Hlen. cbn [length] in Hlen.
      assert (Hstart : starts_value (join_comma (List.map dumps l') ++ 93 :: rest)).
      { subst l'. cbn [List.map]. rewrite join_comma_cons. norm_app.
        apply starts_value_app, dumps_head. }
      set (J := join_comma (List.map dumps l')) in *.
      norm_app. rewrite IHv; [| lia | done | reflexivity].
      cbn [skip_ws is_ws N.eqb Pos.eqb orb].
      rewrite (skip_ws_starts _ Hstart).
      subst J. rewrite IHl; [done | done | lia | done].
  - intros kvs t rest Hjoin Hlen Hwf. destruct kvs as [|[k v] kvs]; [done|].
    rewrite members_start in Hjoin. injection Hjoin as <-.
    cbn [forallb fst snd] in Hwf, Hlen |- *.
    apply andb_true_iff in Hwf as [Hkv Hwf]. apply andb_true_iff in Hkv as [Hk Hv].
    pose proof (dumps_head v) as Hhead.
    rewrite !length_app in Hlen. cbn [length] in Hlen. rewrite !length_app in Hlen.
    rewrite scan_members_eq. destruct kvs as [|kv' kvs].
    + norm_app. rewrite scanstring_escape by done.
      cbn [skip_ws is_ws N.eqb Pos.eqb orb].
      rewrite skip_ws_starts by (apply starts_value_app, Hhead).
      rewrite IHv; [reflexivity | lia | done | reflexivity].
    + pose proof (members_start kv' kvs) as Ht.
      match type of Ht with _ = 34 :: ?u => set (t := u) in Ht end.
      set (kvs' := kv' :: kvs) in *. rewrite Ht in *.
      cbn [length] in Hlen.
      norm_app. rewrite scanstring_escape by done.
      cbn [skip_ws is_ws N.eqb Pos.eqb orb].
      rewrite skip_ws_starts by (apply starts_value_app, Hhead).
      rewrite IHv; [| lia | done | reflexivity].
      cbn [skip_ws is_ws N.eqb Pos.eqb orb].
      rewrite (IHm kvs' t rest); [done | done | lia | done].
Qed.

End Codec.

(** [json.loads(json.dumps(v)) == v] for every JSON value Python holds. *)
Lemma loads_dumps (v : json) : wf_json v = true -> loads (dumps v) = Some v.
Proof.
  intros Hwf. unfold loads.
  rewrite (skip_ws_starts _ (dumps_head v)).
  destruct (scan_dumps (S (length (dumps v)))) as [Hscan _].
  specialize (Hscan v [] (Nat.le_succ_diag_r _) Hwf eq_refl).
  rewrite app_nil_r in Hscan. by rewrite Hscan.
Qed.

Lemma recipe_wf (r : list Ingredient) :
  forallb valid_ingredient r = true -> wf_json (recipe_json r) = true.
Proof.
  unfold recipe_json. cbn [wf_json].
  induction r as [|g r IH]; [done|].
  cbn [forallb List.map]. unfold valid_ingredient at 1.
  rewrite !andb_true_iff. intros [[Hn Hc] Hr].
  split; [|by apply IH].
  cbn [ingredient_json wf_json List.map forallb fst snd].
  rewrite Hn, Hc. reflexivity.
Qed.

Lemma recipe_json_inj (r r' : list Ingredient) :
  recipe_json r' = recipe_json r -> r' = r.
Proof.
  unfold recipe_json. intros [= H]. revert r' H.
  induction r as [|g r IH]; intros [|g' r']; cbn; try done.
  intros [= Hn Hc Hp Hr]. f_equal; [|by apply IH].
  destruct g, g'; cbn in *. by subst.
Qed.

(** C9: a recipe structure, a list of entries with name, color and
    quantity, survives the write path and the read path.  Deserializing
    its serialization gives the same structure, hence the same entries in
    the same order; POST and PATCH store that serialization, and the
    long form read from the stored row carries the recipe that was sent. *)
Theorem recipe_round_trip (r : list Ingredient) :
  forallb valid_ingredient r = true ->
  loads (dumps (recipe_json r)) = Some (recipe_json r)
  /\ (forall r', loads (dumps (recipe_json r)) = Some (recipe_json r') -> r' = r)
  /\ (forall d, recipe d = dumps (recipe_json r) ->
        Drink_long d
        = Return (JObj [(lit "id", JNum (id d)); (lit "title", title d);
                        (lit "recipe", recipe_json r)]))
  /\ (forall db a t,
        available db = true ->
        authorized a (lit "post:drinks") = true ->
        title_missing t = false ->
        exists db',
          app (request POST drinks_url a
                 (json_body (JObj [(lit "title", t); (lit "recipe", recipe_json r)]))) db
          = (db', jsonify [(lit "success", JBool true);
                           (lit "drinks",
                            JArr [JObj [(lit "id", JNum (next_id db)); (lit "title", t);
                                        (lit "recipe", recipe_json r)]])] 200)
          /\ rows db' !! next_id db = Some (t, dumps (recipe_json r)))
  /\ (forall db a i t0 r0,
        available db = true ->
        authorized a (lit "patch:drinks") = true ->
        rows db !! i = Some (t0, r0) ->
        exists db',
          app (request PATCH (drinks_id_url i) a
                 (json_body (JObj [(lit "recipe", recipe_json r)]))) db
          = (db', jsonify [(lit "success", JBool true);
                           (lit "drinks",
                            JArr [JObj [(lit "id", JNum i); (lit "title", t0);
                                        (lit "recipe", recipe_json r)]])] 200)
          /\ rows db' !! i = Some (t0, dumps (recipe_json r))).
Proof.
  intros Hvalid.
  pose proof (loads_dumps _ (recipe_wf r Hvalid)) as Hrt.
  assert (Hlong : forall d, recipe d = dumps (recipe_json r) ->
            Drink_long d
            = Return (JObj [(lit "id", JNum (id d)); (lit "title", title d);
                            (lit "recipe", recipe_json r)])).
  { intros d Hd. unfold Drink_long. by rewrite Hd, Hrt. }
  split; [exact Hrt|]. split.
  { intros r' H. rewrite Hrt in H. apply recipe_json_inj. congruence. }
  split; [exact Hlong|]. split.
  - intros db a t Hav Hauth Ht.
    unfold app, dispatch, request, post_drink. cbn [path method].
    open_gate Hauth.
    erewrite bind_return by reflexivity.
    erewrite bind_return by apply post_guard.
    change (negb (dict_has (lit "recipe") _)) with false. cbv beta iota.
    erewrite bind_return by reflexivity.
    erewrite bind_return by reflexivity.
    cbv zeta.
    erewrite bind_return
      by (unfold Drink_insert; rewrite Hav, Ht; reflexivity).
    erewrite bind_return by (unfold lift; rewrite Hlong; reflexivity).
    eexists. split; [reflexivity|]. apply lookup_insert_eq.
  - intros db a i t0 r0 Hav Hauth Hrow.
    unfold app, dispatch, request, update_drink. cbn [path method].
    open_gate Hauth.
    erewrite bind_return by (by apply query_get_available).
    rewrite Hrow. cbn [fmap option_fmap option_map].
    erewrite bind_return by reflexivity.
    rewrite update_fields.
    change (dict_get (lit "title") _) with (@None json).
    change (dict_get (lit "recipe") [(lit "recipe", recipe_json r)])
      with (Some (recipe_json r)).
    cbn [default from_option id title recipe fst snd].
    erewrite bind_return by (by apply update_available).
    erewrite bind_return by (unfold lift; rewrite Hlong; reflexivity).
    eexists. split; [reflexivity|]. apply lookup_insert_eq.
Qed.

Lemma recipe_round_trip_witness :
  loads (dumps water_recipe) = Some water_recipe
  /\ (exists db',
        app (request POST drinks_url (Some manager)
               (json_body (JObj [(lit "title", JStr (lit "Water"));
                                 (lit "recipe", water_recipe)]))) sample_db
        = (db', jsonify [(lit "success", JBool true);
                         (lit "drinks",
                          JArr [JObj [(lit "id", JNum 3);
                                      (lit "title", JStr (lit "Water"));
                                      (lit "recipe", water_recipe)]])] 200)
        /\ rows db' !! 3 = Some (JStr (lit "Water"), dumps water_recipe)).
Proof.
  pose proof (recipe_round_trip
                [{| name := lit "Water"; color := lit "blue"; parts := 1 |}] eq_refl)
    as (Hrt & _ & _ & Hpost & _).
  split; [exact Hrt|].
  apply (Hpost sample_db (Some manager) (JStr (lit "Water"))); reflexivity.
Defined.

(** ** Worked examples *)

Example dumps_numbers :
  dumps (JArr [JNum 1; JNum (-20); JNull; JBool true]) = lit "[1, -20, null, true]".
Proof. reflexivity. Qed.

Example loads_white_space :
  loads (lit " [1 , 2 ] ") = Some (JArr [JNum 1; JNum 2]).
Proof. reflexivity. Qed.

(** A fraction makes the number a [float], which has no value here. *)
Example loads_float : loads (lit "[1, 2.5]") = None.
Proof. reflexivity. Qed.

Example escape_non_ascii :
  escape [233; 10; 128512]%N = lit "\u00e9\n\ud83d\ude00".
Proof. reflexivity. Qed.

(** Why [valid_str] asks that no high surrogate precede a low one: two
    such characters are written as two escapes and read back as one
    character. *)
Example surrogates_merge :
  loads (dumps (JStr [55357; 56832]%N)) = Some (JStr [128512%N]).
Proof. reflexivity. Qed.

(** The guard of [post_drink] on a body with a title and no recipe, and on
    a body with a recipe and no title. *)
Example guard_title_only :
  py_not_in (lit "recipe") (JObj [(lit "title", JStr (lit "Water"))]) = Return true.
Proof. reflexivity. Qed.

Example guard_recipe_only :
  py_not_in (lit "recipe") (JObj [(lit "recipe", water_recipe)]) = Return false.
Proof. reflexivity. Qed.

(** The scenario of the specification: POST of a drink called Water, read
    back through GET /drinks-detail and, without quantities, through
    GET /drinks. *)
Example post_then_list :
  let body := JObj [(lit "title", JStr (lit "Water")); (lit "recipe", water_recipe)] in
  let empty := {| rows := ∅; next_id := 1; available := true |} in
  let db := (app (request POST drinks_url (Some manager) (json_body body)) empty).1 in
  (app (request GET drinks_detail_url (Some barista) malformed_body) db).2
  = jsonify [(lit "success", JBool true);
             (lit "drinks",
              JArr [JObj [(lit "id", JNum 1); (lit "title", JStr (lit "Water"));
                          (lit "recipe", water_recipe)]])] 200
  /\ (app (request GET drinks_url None malformed_body) db).2
     = jsonify [(lit "success", JBool true);
                (lit "drinks",
                 JArr [JObj [(lit "id", JNum 1); (lit "title", JStr (lit "Water"));
                             (lit "recipe",
                              JArr [JObj [(lit "name", JStr (lit "Water"));
                                          (lit "color", JStr (lit "blue"))]])]])] 200.
Proof. split; reflexivity. Qed.

(** * Further properties of the views *)

(** ** Rules for stepping through a view with a specification *)

Lemma hoare_ret {A} (R : Database -> Database -> Prop) (P : A -> Prop)
    (E : exn -> Prop) (a : A) :
  (forall db, R db db) -> P a -> hoare R P E (mret a).
Proof. intros Hrefl Hp db. split; [apply Hrefl | exact Hp]. Qed.

Lemma hoare_raise {A} (R : Database -> Database -> Prop) (P : A -> Prop)
    (E : exn -> Prop) (e : exn) :
  (forall db, R db db) -> E e -> hoare R P E (raise e).
Proof. intros Hrefl He db. split; [apply Hrefl | exact He]. Qed.

Lemma hoare_lift {A} (R : Database -> Database -> Prop) (P : A -> Prop)
    (E : exn -> Prop) (r : result A) :
  (forall db, R db db) ->
  match r with Return a => P a | Raise e => E e end ->
  hoare R P E (lift r).
Proof. intros Hrefl Hr db. split; [apply Hrefl | exact Hr]. Qed.

Lemma hoare_bind_first {A B} (R : Database -> Database -> Prop) (Q : A -> Prop)
    (P : B -> Prop) (E : exn -> Prop) (m : M A) (f : A -> M B) :
  (forall db, R db db) ->
  hoare same_db Q E m -> (forall a, Q a -> hoare R P E (f a)) ->
  hoare R P E (m ≫= f).
Proof.
  intros Hrefl Hm Hf db. destruct (Hm db) as [Hdb Hres].
  unfold mbind, M_bind. destruct (m db) as [db' [a|e]]; cbn in *.
  - unfold same_db in Hdb. subst db'. by apply Hf.
  - unfold same_db in Hdb. subst db'. split; [apply Hrefl | done].
Qed.

Lemma hoare_bind_last {A B} (R : Database -> Database -> Prop) (Q : A -> Prop)
    (P : B -> Prop) (E : exn -> Prop) (m : M A) (f : A -> M B) :
  hoare R Q E m -> (forall a, Q a -> hoare same_db P E (f a)) ->
  hoare R P E (m ≫= f).
Proof.
  intros Hm Hf db. destruct (Hm db) as [Hdb Hres].
  unfold mbind, M_bind. destruct (m db) as [db' [a|e]]; cbn in *; [|done].
  destruct (Hf a Hres db') as [Hsame Hout]. unfold same_db in Hsame.
  rewrite Hsame. done.
Qed.

Lemma hoare_weaken {A} (R R' : Database -> Database -> Prop) (P P' : A -> Prop)
    (E E' : exn -> Prop) (m : M A) :
  hoare R P E m ->
  (forall db db', R db db' -> R' db db') ->
  (forall a, P a -> P' a) -> (forall e, E e -> E' e) ->
  hoare R' P' E' m.
Proof.
  intros Hm HR HP HE db. destruct (Hm db) as [Hdb Hres].
  split; [by apply HR|]. destruct ((m db).2); auto.
Qed.

Lemma hoare_try {A} (P : A -> Prop) (E : exn -> Prop) (body : M A)
    (h : exn -> M A) :
  hoare same_db P (fun _ => True) body -> (forall e, hoare same_db P E (h e)) ->
  hoare same_db P E (try_except body h).
Proof.
  intros Hb Hh db. destruct (Hb db) as [Hdb Hres]. unfold try_except.
  destruct (body db) as [db' [a|e]]; cbn in *; [done|].
  unfold same_db in Hdb. subst db'. apply Hh.
Qed.

Lemma hoare_gate {A} (R : Database -> Database -> Prop) (P : A -> Prop)
    (E : exn -> Prop) (p : pystr) (f : AuthContext -> M A) (req : Request) :
  (forall db, R db db) ->
  (forall k, E (AuthErrorExc (auth_error_of k))) ->
  (forall ctx, hoare R P E (f ctx)) ->
  hoare R P E (requires_auth p f req).
Proof.
  intros Hrefl HE Hf. unfold requires_auth.
  apply (hoare_bind_first R (fun _ => True)); [done| |auto].
  apply hoare_lift; [done|].
  destruct (verify _ _) as [ctx|e] eqn:Hv; [done|].
  destruct (verify_raises _ _ _ Hv) as [k ->]. apply HE.
Qed.

Lemma same_db_refl (db : Database) : same_db db db.
Proof. reflexivity. Qed.

Lemma only_row_refl (i : Z) (db : Database) : only_row i db db.
Proof. by repeat split. Qed.

Lemma at_most_created_refl (db : Database) : at_most_created db db.
Proof. by left. Qed.

Lemma expected_gate (k : AuthErrorKind) : expected (AuthErrorExc (auth_error_of k)).
Proof. by exists k. Qed.

(** *** The operations a view is made of *)

Lemma py_in_expected (k : pystr) (data : json) :
  match py_in k data with Return _ => True | Raise e => expected e end.
Proof. by destruct data. Qed.

Lemma py_not_in_expected (k : pystr) (data : json) :
  match py_not_in k data with Return _ => True | Raise e => expected e end.
Proof. by destruct data. Qed.

Lemma py_getitem_expected (data : json) (k : pystr) :
  match py_getitem data k with Return _ => True | Raise e => expected e end.
Proof. destruct data; try done. cbn. by destruct (dict_get k kvs). Qed.

Lemma long_expected (d : Drink) :
  match Drink_long d with Return _ => True | Raise e => expected e end.
Proof. unfold Drink_long. by destruct (loads (recipe d)). Qed.

Lemma hoare_get_json (req : Request) :
  hoare same_db (fun _ => True) expected (get_json req).
Proof.
  unfold get_json. destruct (req_body req).
  - by apply hoare_ret.
  - apply hoare_raise; [done|]. cbn. auto.
Qed.

Lemma hoare_query_get (i : Z) :
  hoare same_db (fun found => forall d, found = Some d -> id d = i) expected
    (Drink_query_get i).
Proof.
  intros db. unfold Drink_query_get. destruct (available db); cbn; [|done].
  split; [done|]. intros d. destruct (rows db !! i); cbn; [|done].
  by intros [= <-].
Qed.

Lemma hoare_update (d : Drink) :
  hoare (only_row (id d)) (fun _ => True) expected (Drink_update d).
Proof.
  intros db. unfold Drink_update. destruct (available db) eqn:Hav; cbn.
  - split; [|done]. split; [done|]. split; [done|].
    intros j Hj. cbn. by rewrite lookup_insert_ne.
  - split; [apply only_row_refl | done].
Qed.

Lemma hoare_delete (d : Drink) :
  hoare (only_row (id d)) (fun _ => True) expected (Drink_delete d).
Proof.
  intros db. unfold Drink_delete. destruct (available db) eqn:Hav; cbn.
  - split; [|done]. split; [done|]. split; [done|].
    intros j Hj. cbn. by rewrite lookup_delete_ne.
  - split; [apply only_row_refl | done].
Qed.

Lemma hoare_insert (t : json) (r : pystr) :
  hoare at_most_created (fun _ => True) expected (Drink_insert t r).
Proof.
  intros db. unfold Drink_insert.
  destruct (available db); cbn; [|split; [by left | done]].
  destruct (title_missing t); cbn; [split; [by left | done]|].
  split; [right; eauto | done].
Qed.

Lemma hoare_listing {A} (proj : A -> result json) (q : M (list A)) :
  hoare same_db (fun _ => True) (fun _ => True) q ->
  hoare same_db success_document (fun _ => True)
    (drinks ← q;
     docs ← lift (mapR proj drinks);
     mret (jsonify [(lit "success", JBool true); (lit "drinks", JArr docs)] 200)).
Proof.
  intros Hq.
  eapply hoare_bind_first; [done | exact Hq | intros l _].
  eapply (hoare_bind_first _ (fun _ => True)); [done| |intros docs _].
  - apply hoare_lift; [done|]. by destruct (mapR proj l).
  - apply hoare_ret; [done|]. unfold success_document. eauto.
Qed.

Lemma hoare_query_all :
  hoare same_db (fun _ => True) (fun _ => True) Drink_query_order_by_id_all.
Proof.
  intros db. unfold Drink_query_order_by_id_all. by destruct (available db).
Qed.

(** *** The views *)

Lemma hoare_get_drinks (req : Request) :
  hoare same_db success_document (fun e => e = HTTPException 404) (get_drinks req).
Proof.
  unfold get_drinks. apply hoare_try; [apply hoare_listing, hoare_query_all|].
  intros e. by apply hoare_raise.
Qed.

Lemma hoare_get_drinks_detail (req : Request) :
  hoare same_db success_document
    (fun e => e = HTTPException 404 \/ exists k, e = AuthErrorExc (auth_error_of k))
    (get_drinks_detail req).
Proof.
  unfold get_drinks_detail. apply hoare_gate; [done | eauto |]. intros ctx.
  apply hoare_try; [apply hoare_listing, hoare_query_all|].
  intros e. apply hoare_raise; [done | by left].
Qed.

Lemma hoare_delete_drink (i : Z) (req : Request) :
  hoare (only_row i) success_document expected (delete_drink i req).
Proof.
  unfold delete_drink.
  apply hoare_gate; [apply only_row_refl | apply expected_gate |]. intros ctx.
  eapply hoare_bind_first; [apply only_row_refl | apply hoare_query_get |].
  intros [drink|] Hfound; [|apply hoare_raise; [apply only_row_refl | cbn; auto]].
  rewrite <- (Hfound drink eq_refl).
  eapply hoare_bind_last; [apply hoare_delete|]. intros _ _.
  apply hoare_ret; [done|]. unfold success_document. eauto.
Qed.

Lemma hoare_update_drink (i : Z) (req : Request) :
  hoare (only_row i) success_document expected (update_drink i req).
Proof.
  unfold update_drink.
  apply hoare_gate; [apply only_row_refl | apply expected_gate |]. intros ctx.
  eapply hoare_bind_first; [apply only_row_refl | apply hoare_query_get |].
  intros [drink|] Hfound; [|apply hoare_raise; [apply only_row_refl | cbn; auto]].
  specialize (Hfound drink eq_refl).
  eapply hoare_bind_first; [apply only_row_refl | apply hoare_get_json |].
  intros data _.
  eapply (hoare_bind_first _ (fun _ => True)); [apply only_row_refl | |].
  { apply hoare_lift; [done | apply py_in_expected]. }
  intros has_title _.
  eapply (hoare_bind_first _ (fun d => id d = i)); [apply only_row_refl | |].
  { destruct has_title; [|by apply hoare_ret].
    eapply (hoare_bind_first _ (fun _ => True)); [done | |].
    - apply hoare_lift; [done | apply py_getitem_expected].
    - intros t _. by apply hoare_ret. }
  intros drink1 Hid1.
  eapply (hoare_bind_first _ (fun _ => True)); [apply only_row_refl | |].
  { apply hoare_lift; [done | apply py_in_expected]. }
  intros has_recipe _.
  eapply (hoare_bind_first _ (fun d => id d = i)); [apply only_row_refl | |].
  { destruct has_recipe; [|by apply hoare_ret].
    eapply (hoare_bind_first _ (fun _ => True)); [done | |].
    - apply hoare_lift; [done | apply py_getitem_expected].
    - intros r _. by apply hoare_ret. }
  intros drink2 Hid2. rewrite <- Hid2.
  eapply hoare_bind_last; [apply hoare_update|]. intros _ _.
  eapply (hoare_bind_first _ (fun _ => True)); [done | |].
  - apply hoare_lift; [done | apply long_expected].
  - intros long _. apply hoare_ret; [done|]. unfold success_document. eauto.
Qed.

Lemma hoare_post_drink (req : Request) :
  hoare at_most_created success_document expected (post_drink req).
Proof.
  unfold post_drink.
  apply hoare_gate; [apply at_most_created_refl | apply expected_gate |]. intros ctx.
  eapply hoare_bind_first; [apply at_most_created_refl | apply hoare_get_json |].
  intros data _.
  eapply (hoare_bind_first _ (fun _ => True)); [apply at_most_created_refl | |].
  { destruct (truthy _); [|by apply hoare_ret].
    apply hoare_lift; [done | apply py_not_in_expected]. }
  intros [|] _.
  { apply hoare_raise; [apply at_most_created_refl | cbn; auto]. }
  eapply (hoare_bind_first _ (fun _ => True)); [apply at_most_created_refl | |].
  { apply hoare_lift; [done | apply py_getitem_expected]. }
  intros t _.
  eapply (hoare_bind_first _ (fun _ => True)); [apply at_most_created_refl | |].
  { apply hoare_lift; [done | apply py_getitem_expected]. }
  intros r _. cbv zeta.
  eapply hoare_bind_last; [apply hoare_insert|]. intros drink _.
  eapply (hoare_bind_first _ (fun _ => True)); [done | |].
  - apply hoare_lift; [done | apply long_expected].
  - intros long _. apply hoare_ret; [done|]. unfold success_document. eauto.
Qed.

(** Every request ends in a success document or in one of the expected
    exceptions. *)
Lemma hoare_dispatch (req : Request) :
  hoare (fun _ _ => True) success_document expected (dispatch req).
Proof.
  unfold dispatch. destruct (path req), (method req);
    try (apply hoare_raise; [done | cbn; auto]).
  - eapply hoare_weaken; [apply hoare_get_drinks | done | done |].
    intros e ->. cbn. auto.
  - eapply hoare_weaken; [apply hoare_post_drink | done | done | done].
  - eapply hoare_weaken; [apply hoare_get_drinks_detail | done | done |].
    intros e [-> | [k ->]]; cbn; eauto.
  - eapply hoare_weaken; [apply hoare_update_drink | done | done | done].
  - eapply hoare_weaken; [apply hoare_delete_drink | done | done | done].
Qed.

Lemma app_db (req : Request) (db : Database) : (app req db).1 = (dispatch req db).1.
Proof. unfold app. by destruct (dispatch req db) as [db' [r|e]]. Qed.

Lemma app_response (req : Request) (db : Database) :
  (app req db).2
  = match (dispatch req db).2 with
    | Return r => r
    | Raise e => handle_exception e
    end.
Proof. unfold app. by destruct (dispatch req db) as [db' [r|e]]. Qed.

(** X1: the API answers with eight statuses only, and the [success] flag
    of the document says whether the status is 200. *)
Theorem status_and_success_flag (req : Request) (db : Database) :
  status (app req db).2 ∈ [200; 400; 401; 403; 404; 405; 422; 500]
  /\ exists d,
       body (app req db).2 = json_doc d
       /\ dict_get (lit "success") d = Some (JBool (status (app req db).2 =? 200)).
Proof.
  rewrite app_response. destruct (hoare_dispatch req db) as [_ Hout].
  destruct ((dispatch req db).2) as [r|e].
  - destruct Hout as (k & v & ->). cbn. split; [by repeat constructor|]. by eexists.
  - destruct e as [k| | |k|a|c]; cbn in Hout;
      try (split; [vm_compute; by repeat constructor | by eexists]).
    + destruct Hout as [k ->]. destruct k; (split; [cbn; by repeat constructor | by eexists]).
    + destruct Hout as [-> | [-> | [-> | ->]]]; (split; [cbn; by repeat constructor | by eexists]).
Qed.

(** X2: a request on /drinks/<i>, whatever its method, token and body and
    however it ends, leaves every other row and the key counter as they
    were. *)
Theorem item_routes_touch_one_row (m : Method) (i j : Z) (a : option Token)
    (b : Body) (db : Database) :
  j <> i ->
  rows (app (request m (drinks_id_url i) a b) db).1 !! j = rows db !! j
  /\ next_id (app (request m (drinks_id_url i) a b) db).1 = next_id db.
Proof.
  intros Hj. rewrite app_db. unfold dispatch, request. cbn [path method].
  destruct m; try done.
  - destruct (hoare_update_drink i
                {| method := PATCH; path := drinks_id_url i;
                   authorization := a; req_body := b |} db)
      as [(Hnext & _ & Hrows) _].
    split; [by apply Hrows | done].
  - destruct (hoare_delete_drink i
                {| method := DELETE; path := drinks_id_url i;
                   authorization := a; req_body := b |} db)
      as [(Hnext & _ & Hrows) _].
    split; [by apply Hrows | done].
Qed.

Lemma item_routes_touch_one_row_witness :
  rows (app (request DELETE (drinks_id_url 1) (Some manager) malformed_body)
          sample_db).1 !! 2 = rows sample_db !! 2
  /\ next_id (app (request DELETE (drinks_id_url 1) (Some manager) malformed_body)
                sample_db).1 = next_id sample_db.
Proof.
  apply (item_routes_touch_one_row DELETE 1 2 (Some manager) malformed_body sample_db).
  discriminate.
Defined.

(** X3: a GET request never changes the database, on any URL, with any
    token, whether it is answered 200, 401, 403, 404 or 405. *)
Theorem get_changes_nothing (req : Request) (db : Database) :
  method req = GET -> (app req db).1 = db.
Proof.
  intros Hm. rewrite app_db. unfold dispatch. rewrite Hm.
  destruct (path req); try done.
  - apply (hoare_get_drinks req db).
  - apply (hoare_get_drinks_detail req db).
Qed.

Lemma get_changes_nothing_witness :
  (app (request GET drinks_detail_url (Some barista) malformed_body) sample_db).1
  = sample_db.
Proof.
  apply (get_changes_nothing
           (request GET drinks_detail_url (Some barista) malformed_body) sample_db).
  reflexivity.
Defined.

(** X4: GET /drinks is public: the answer does not depend on the token or
    on the body of the request, and its status is 200 or 404. *)
Theorem get_drinks_is_public (a a' : option Token) (b b' : Body) (db : Database) :
  app (request GET drinks_url a b) db = app (request GET drinks_url a' b') db
  /\ (status (app (request GET drinks_url a b) db).2 = 200
      \/ status (app (request GET drinks_url a b) db).2 = 404).
Proof.
  split; [reflexivity|].
  rewrite app_response. unfold dispatch, request. cbn [path method].
  match goal with
  | |- context [get_drinks ?r db] => destruct (hoare_get_drinks r db) as [_ Hout]
  end.
  destruct ((get_drinks _ db).2) as [r|e].
  - destruct Hout as (k & v & ->). by left.
  - subst e. by right.
Qed.

(** X5: on a gated route the gate comes first.  A request whose token
    does not pass verification for the route's permission is answered
    with the document of the [AuthError], status 401 or 403, and the
    database is not touched, whatever the id, the body or the state of
    the store. *)
Theorem refused_before_anything_else (req : Request) (db : Database) (p : pystr) :
  required_permission req = Some p ->
  authorized (authorization req) p = false ->
  exists k,
    app req db = (db, auth_error (auth_error_of k))
    /\ (status (app req db).2 = 401 \/ status (app req db).2 = 403).
Proof.
  intros Hp Hauth. unfold authorized in Hauth.
  destruct (verify (authorization req) p) as [ctx|e] eqn:Hv; [done|].
  destruct (verify_raises _ _ _ Hv) as [k ->]. exists k.
  assert (H : app req db = (db, auth_error (auth_error_of k))).
  { unfold app. by rewrite (gated_route_refuses req db p _ Hp Hv). }
  rewrite H. split; [done|]. cbn. apply kind_status_cases.
Qed.

Lemma refused_before_anything_else_witness :
  exists k,
    app (request PATCH (drinks_id_url 99) (Some barista) malformed_body) offline_db
    = (offline_db, auth_error (auth_error_of k))
    /\ (status (app (request PATCH (drinks_id_url 99) (Some barista) malformed_body)
                  offline_db).2 = 401
        \/ status (app (request PATCH (drinks_id_url 99) (Some barista) malformed_body)
                     offline_db).2 = 403).
Proof.
  apply (refused_before_anything_else
           (request PATCH (drinks_id_url 99) (Some barista) malformed_body)
           offline_db (lit "patch:drinks")); reflexivity.
Defined.

(** ** POST /drinks *)

Lemma post_after_guard (db : Database) (data : json) (b : bool)
    (k : bool -> M Response) :
  py_not_in (lit "recipe") data = Return b ->
  (guard ← (if truthy (lit "title")
            then lift (py_not_in (lit "recipe") data)
            else mret false);
   k guard) db = k b db.
Proof. intros H. apply bind_return. cbn. unfold lift. by rewrite H. Qed.

(** X6: POST is refused with 422, and nothing is stored, whenever
    ['recipe' not in data] holds of the body: an object without that key,
    but also a list without that element or a string without that
    substring; the title plays no part. *)
Theorem post_needs_recipe (db : Database) (a : option Token) (data : json) :
  authorized a (lit "post:drinks") = true ->
  py_in (lit "recipe") data = Return false ->
  app (request POST drinks_url a (json_body data)) db = (db, uproccessable).
Proof.
  intros Hauth Hin.
  unfold app, dispatch, request, post_drink. cbn [path method].
  open_gate Hauth.
  erewrite bind_return by reflexivity.
  erewrite (post_after_guard _ _ true)
    by (unfold py_not_in; by rewrite Hin).
  reflexivity.
Qed.

Lemma post_needs_recipe_witness :
  app (request POST drinks_url (Some manager)
         (json_body (JArr [JStr (lit "title"); JNum 1]))) sample_db
  = (sample_db, uproccessable).
Proof.
  apply (post_needs_recipe sample_db (Some manager) (JArr [JStr (lit "title"); JNum 1]));
    reflexivity.
Defined.

(** X7: a POST body that is valid JSON but not an object never creates a
    drink.  [null], a boolean or a number makes the membership test raise
    and is answered 500; a list or a string is answered 422 when it does
    not contain [recipe] and 500 when it does, because subscripting it by
    a key raises. *)
Theorem post_rejects_non_objects (db : Database) (a : option Token) (data : json) :
  authorized a (lit "post:drinks") = true ->
  not_object data = true ->
  (app (request POST drinks_url a (json_body data)) db).1 = db
  /\ (py_in (lit "recipe") data = Return false ->
      (app (request POST drinks_url a (json_body data)) db).2 = uproccessable)
  /\ (py_in (lit "recipe") data <> Return false ->
      (app (request POST drinks_url a (json_body data)) db).2 = internal_server_error).
Proof.
  intros Hauth Hobj.
  unfold app, dispatch, request, post_drink. cbn [path method].
  open_gate Hauth.
  erewrite bind_return by reflexivity.
  destruct data as [|b|z|s|l|kvs]; try discriminate;
    try (erewrite bind_raise by reflexivity; repeat split; done).
  - destruct (str_contains (lit "recipe") s) eqn:Hs.
    + erewrite (post_after_guard _ _ false) by (unfold py_not_in; cbn; by rewrite Hs).
      erewrite bind_raise by reflexivity.
      split; [done|]. split; [|done].
      intros H. cbn in H. rewrite Hs in H. discriminate.
    + erewrite (post_after_guard _ _ true) by (unfold py_not_in; cbn; by rewrite Hs).
      split; [done|]. split; [done|].
      intros H. cbn in H. by rewrite Hs in H.
  - destruct (existsb (fun x => match x with JStr s => str_eqb (lit "recipe") s
                                        | _ => false end) l) eqn:Hl.
    + erewrite (post_after_guard _ _ false) by (unfold py_not_in; cbn; by rewrite Hl).
      erewrite bind_raise by reflexivity.
      split; [done|]. split; [|done].
      intros H. cbn in H. rewrite Hl in H. discriminate.
    + erewrite (post_after_guard _ _ true) by (unfold py_not_in; cbn; by rewrite Hl).
      split; [done|]. split; [done|].
      intros H. cbn in H. by rewrite Hl in H.
Qed.

Lemma post_rejects_non_objects_witness :
  (app (request POST drinks_url (Some manager)
          (json_body (JStr (lit "my recipe")))) sample_db).1 = sample_db
  /\ (app (request POST drinks_url (Some manager)
             (json_body (JStr (lit "my recipe")))) sample_db).2 = internal_server_error.
Proof.
  destruct (post_rejects_non_objects sample_db (Some manager) (JStr (lit "my recipe"))
              eq_refl eq_refl) as (Hdb & _ & H500).
  split; [exact Hdb|]. apply H500. discriminate.
Defined.

(** What POST with an object that has both keys does, in one equation. *)
Lemma post_run (db : Database) (a : option Token)
    (kvs : list (pystr * json)) (t r : json) :
  available db = true ->
  authorized a (lit "post:drinks") = true ->
  dict_get (lit "title") kvs = Some t ->
  dict_get (lit "recipe") kvs = Some r ->
  title_missing t = false ->
  wf_json r = true ->
  app (request POST drinks_url a (json_body (JObj kvs))) db
  = ({| rows := <[next_id db := (t, dumps r)]> (rows db);
        next_id := next_id db + 1; available := true |},
     jsonify [(lit "success", JBool true);
              (lit "drinks",
               JArr [JObj [(lit "id", JNum (next_id db)); (lit "title", t);
                           (lit "recipe", r)]])] 200).
Proof.
  intros Hav Hauth Ht Hr Htitle Hwf.
  unfold app, dispatch, request, post_drink. cbn [path method].
  open_gate Hauth.
  erewrite bind_return by reflexivity.
  erewrite (post_after_guard _ _ false)
    by (unfold py_not_in, py_in, dict_has; by rewrite Hr).
  erewrite bind_return by (unfold lift, py_getitem; by rewrite Ht).
  erewrite bind_return by (unfold lift, py_getitem; by rewrite Hr).
  cbv zeta.
  erewrite bind_return by (unfold Drink_insert; rewrite Hav, Htitle; reflexivity).
  erewrite bind_return
    by (unfold lift, Drink_long; cbn [recipe]; rewrite (loads_dumps _ Hwf); reflexivity).
  reflexivity.
Qed.



(** ** PATCH /drinks/<id> *)

(** What PATCH with an object does to an existing drink, in one
    equation: the row afterwards and the response, which is the long form
    of the new row or, when its recipe text does not deserialize, the 500
    document. *)
Lemma patch_run (db : Database) (i : Z) (a : option Token)
    (kvs : list (pystr * json)) (t : json) (r : pystr) :
  available db = true ->
  authorized a (lit "patch:drinks") = true ->
  rows db !! i = Some (t, r) ->
  app (request PATCH (drinks_id_url i) a (json_body (JObj kvs))) db
  = ({| rows := <[i := (default t (dict_get (lit "title") kvs),
                        from_option dumps r (dict_get (lit "recipe") kvs))]> (rows db);
        next_id := next_id db; available := true |},
     match Drink_long {| id := i;
                         title := default t (dict_get (lit "title") kvs);
                         recipe := from_option dumps r (dict_get (lit "recipe") kvs) |}
     with
     | Return long =>
         jsonify [(lit "success", JBool true); (lit "drinks", JArr [long])] 200
     | Raise e => handle_exception e
     end).
Proof.
  intros Hav Hauth Hrow.
  unfold app, dispatch, request, update_drink. cbn [path method].
  open_gate Hauth.
  erewrite bind_return by (by apply query_get_available).
  rewrite Hrow. cbn [fmap option_fmap option_map].
  erewrite bind_return by reflexivity.
  rewrite update_fields. cbn [id title recipe fst snd].
  erewrite bind_return by (by apply update_available).
  cbn [id title recipe]. unfold mbind, M_bind, lift.
  by destruct (Drink_long _).
Qed.

(** X9: PATCH on an id that is not in the table never answers 200 and
    changes nothing; past the gate, with the store answering, it is the
    404 document whatever the body, even one that is not JSON: the row is
    looked up before the body is read. *)
Theorem patch_missing (db : Database) (i : Z) (a : option Token) (b : Body) :
  rows db !! i = None ->
  (app (request PATCH (drinks_id_url i) a b) db).1 = db
  /\ status (app (request PATCH (drinks_id_url i) a b) db).2 <> 200
  /\ (available db = true -> authorized a (lit "patch:drinks") = true ->
      app (request PATCH (drinks_id_url i) a b) db = (db, not_found)).
Proof.
  intros Hrow.
  unfold app, dispatch, request, update_drink. cbn [path method].
  destruct (verify a (lit "patch:drinks")) as [ctx|e] eqn:Hv.
  - assert (Hauth : authorized a (lit "patch:drinks") = true)
      by (unfold authorized; by rewrite Hv).
    open_gate Hauth.
    destruct (available db) eqn:Hav.
    + erewrite bind_return by (by apply query_get_available).
      rewrite Hrow. cbn. repeat split; done.
    + erewrite bind_raise by (by apply query_get_unavailable).
      cbn. repeat split; done.
  - erewrite gate_closed by exact Hv.
    destruct (verify_raises _ _ _ Hv) as [k ->]. cbn.
    split; [done|]. split.
    + destruct k; cbn; done.
    + intros _ Hauth. unfold authorized in Hauth. by rewrite Hv in Hauth.
Qed.

Lemma patch_missing_witness :
  (app (request PATCH (drinks_id_url 7) (Some manager) malformed_body) sample_db).1
    = sample_db
  /\ app (request PATCH (drinks_id_url 7) (Some manager) malformed_body) sample_db
     = (sample_db, not_found).
Proof.
  destruct (patch_missing sample_db 7 (Some manager) malformed_body eq_refl)
    as (Hdb & _ & H404).
  split; [exact Hdb|]. apply H404; reflexivity.
Defined.

(** X10: PATCH on an existing drink with a body that is not JSON is
    answered 400 and the drink is left as it was. *)
Theorem patch_malformed_body (db : Database) (i : Z) (a : option Token)
    (t : json) (r : pystr) :
  available db = true ->
  authorized a (lit "patch:drinks") = true ->
  rows db !! i = Some (t, r) ->
  app (request PATCH (drinks_id_url i) a malformed_body) db = (db, bad_request).
Proof.
  intros Hav Hauth Hrow.
  unfold app, dispatch, request, update_drink. cbn [path method].
  open_gate Hauth.
  erewrite bind_return by (by apply query_get_available).
  rewrite Hrow. cbn [fmap option_fmap option_map].
  erewrite bind_raise by reflexivity. reflexivity.
Qed.

Lemma patch_malformed_body_witness :
  app (request PATCH (drinks_id_url 1) (Some manager) malformed_body) sample_db
  = (sample_db, bad_request).
Proof.
  apply (patch_malformed_body sample_db 1 (Some manager)
           (JStr (lit "Water")) (dumps water_recipe)); reflexivity.
Defined.

(** X11: PATCH with a JSON body that is not an object never changes the
    drink.  [null], a boolean or a number makes the membership test raise
    (500); a list or string that contains [title] or [recipe] fails on
    the subscript (500); a list or string that contains neither is
    accepted as an empty update. *)
Theorem patch_non_object (db : Database) (i : Z) (a : option Token) (data : json)
    (t : json) (r : pystr) :
  available db = true ->
  authorized a (lit "patch:drinks") = true ->
  rows db !! i = Some (t, r) ->
  not_object data = true ->
  (app (request PATCH (drinks_id_url i) a (json_body data)) db).1 = db
  /\ (py_in (lit "title") data = Return false ->
      py_in (lit "recipe") data = Return false ->
      forall v, loads r = Some v ->
        (app (request PATCH (drinks_id_url i) a (json_body data)) db).2
        = jsonify [(lit "success", JBool true);
                   (lit "drinks",
                    JArr [JObj [(lit "id", JNum i); (lit "title", t);
                                (lit "recipe", v)]])] 200)
  /\ (py_in (lit "title") data <> Return false
      \/ py_in (lit "recipe") data <> Return false ->
      (app (request PATCH (drinks_id_url i) a (json_body data)) db).2
      = internal_server_error).
Proof.
  intros Hav Hauth Hrow Hobj.
  unfold app, dispatch, request, update_drink. cbn [path method].
  open_gate Hauth.
  erewrite bind_return by (by apply query_get_available).
  rewrite Hrow. cbn [fmap option_fmap option_map].
  erewrite bind_return by reflexivity.
  destruct (py_in (lit "title") data) as [[|]|e] eqn:Htitle.
  - (* the body contains [title]: the subscript raises *)
    erewrite bind_return by reflexivity.
    erewrite bind_raise.
    2:{ apply bind_raise. unfold lift. destruct data; try done. }
    split; [done|]. split; [done|]. intros _.
    destruct data; try done.
  - erewrite bind_return by reflexivity.
    erewrite bind_return by reflexivity.
    destruct (py_in (lit "recipe") data) as [[|]|e] eqn:Hrecipe.
    + erewrite bind_return by reflexivity.
      erewrite bind_raise.
      2:{ apply bind_raise. unfold lift. destruct data; try done. }
      split; [done|]. split; [done|]. intros _. destruct data; try done.
    + erewrite bind_return by reflexivity.
      erewrite bind_return by reflexivity.
      erewrite bind_return by (by apply update_available).
      cbn [id title recipe].
      rewrite (insert_id _ _ _ Hrow), (db_eta _ Hav).
      unfold mbind, M_bind, lift, Drink_long. cbn [recipe id title fst snd].
      destruct (loads r) as [v|] eqn:Hloads.
      * split; [done|]. split; [by intros _ _ v' [= <-]|].
        intros [H|H]; by destruct H.
      * split; [done|]. split; [by intros _ _ v' [=]|].
        intros [H|H]; by destruct H.
    + erewrite bind_raise by reflexivity.
      split; [done|]. split; [done|]. intros _. destruct data; try done.
      all: cbn in Hrecipe; by injection Hrecipe as <-.
  - erewrite bind_raise by reflexivity.
    split; [done|]. split; [done|]. intros _. destruct data; try done.
    all: cbn in Htitle; by injection Htitle as <-.
Qed.

Lemma patch_non_object_witness :
  (app (request PATCH (drinks_id_url 1) (Some manager) (json_body (JArr []))) sample_db).1
    = sample_db
  /\ (app (request PATCH (drinks_id_url 1) (Some manager) (json_body (JArr [])))
        sample_db).2
     = jsonify [(lit "success", JBool true);
                (lit "drinks",
                 JArr [JObj [(lit "id", JNum 1); (lit "title", JStr (lit "Water"));
                             (lit "recipe", water_recipe)]])] 200
  /\ (app (request PATCH (drinks_id_url 1) (Some manager) (json_body JNull))
        sample_db).2 = internal_server_error.
Proof.
  destruct (patch_non_object sample_db 1 (Some manager) (JArr [])
              (JStr (lit "Water")) (dumps water_recipe) eq_refl eq_refl eq_refl eq_refl)
    as (Hdb & Hnoop & _).
  destruct (patch_non_object sample_db 1 (Some manager) JNull
              (JStr (lit "Water")) (dumps water_recipe) eq_refl eq_refl eq_refl eq_refl)
    as (_ & _ & H500).
  split; [exact Hdb|]. split.
  - apply (Hnoop eq_refl eq_refl). reflexivity.
  - apply H500. left. discriminate.
Defined.

(** X12: PATCH with an object is idempotent: sending the same request a
    second time leaves the database as the first left it and is answered
    with the same response. *)
Theorem patch_idempotent (db : Database) (i : Z) (a : option Token)
    (kvs : list (pystr * json)) (t : json) (r : pystr) :
  available db = true ->
  authorized a (lit "patch:drinks") = true ->
  rows db !! i = Some (t, r) ->
  app (request PATCH (drinks_id_url i) a (json_body (JObj kvs)))
      (app (request PATCH (drinks_id_url i) a (json_body (JObj kvs))) db).1
  = app (request PATCH (drinks_id_url i) a (json_body (JObj kvs))) db.
Proof.
  intros Hav Hauth Hrow.
  rewrite (patch_run db i a kvs t r Hav Hauth Hrow). cbn [fst].
  erewrite patch_run; [|reflexivity|exact Hauth|cbn [rows]; apply lookup_insert_eq].
  cbn [rows next_id]. rewrite insert_insert_eq.
  by destruct (dict_get (lit "title") kvs), (dict_get (lit "recipe") kvs).
Qed.

Lemma patch_idempotent_witness :
  app (request PATCH (drinks_id_url 1) (Some manager)
         (json_body (JObj [(lit "recipe", JArr [])])))
      (app (request PATCH (drinks_id_url 1) (Some manager)
              (json_body (JObj [(lit "recipe", JArr [])]))) sample_db).1
  = app (request PATCH (drinks_id_url 1) (Some manager)
           (json_body (JObj [(lit "recipe", JArr [])]))) sample_db.
Proof.
  apply (patch_idempotent sample_db 1 (Some manager) [(lit "recipe", JArr [])]
           (JStr (lit "Water")) (dumps water_recipe)); reflexivity.
Defined.

(** X13: PATCH that carries a recipe answers 200 with the drink in long
    form: the new title if the body has one, the old one otherwise, and
    the recipe that was sent, whatever JSON value it is. *)
Theorem patch_answers_new_recipe (db : Database) (i : Z) (a : option Token)
    (kvs : list (pystr * json)) (t : json) (r : pystr) (v : json) :
  available db = true ->
  authorized a (lit "patch:drinks") = true ->
  rows db !! i = Some (t, r) ->
  dict_get (lit "recipe") kvs = Some v ->
  wf_json v = true ->
  (app (request PATCH (drinks_id_url i) a (json_body (JObj kvs))) db).2
  = jsonify [(lit "success", JBool true);
             (lit "drinks",
              JArr [JObj [(lit "id", JNum i);
                          (lit "title", default t (dict_get (lit "title") kvs));
                          (lit "recipe", v)]])] 200.
Proof.
  intros Hav Hauth Hrow Hv Hwf.
  rewrite (patch_run db i a kvs t r Hav Hauth Hrow). cbn [snd].
  rewrite Hv. unfold Drink_long. cbn [from_option recipe id title].
  by rewrite (loads_dumps _ Hwf).
Qed.

Lemma patch_answers_new_recipe_witness :
  (app (request PATCH (drinks_id_url 2) (Some manager)
          (json_body (JObj [(lit "recipe", JNull)]))) sample_db).2
  = jsonify [(lit "success", JBool true);
             (lit "drinks",
              JArr [JObj [(lit "id", JNum 2); (lit "title", JStr (lit "Latte"));
                          (lit "recipe", JNull)]])] 200.
Proof.
  apply (patch_answers_new_recipe sample_db 2 (Some manager) [(lit "recipe", JNull)]
           (JStr (lit "Latte")) (lit "[]") JNull); reflexivity.
Defined.

(** ** DELETE /drinks/<id> *)

Lemma delete_run (db : Database) (i : Z) (a : option Token) (b : Body)
    (t : json) (r : pystr) :
  available db = true ->
  authorized a (lit "delete:drinks") = true ->
  rows db !! i = Some (t, r) ->
  app (request DELETE (drinks_id_url i) a b) db
  = ({| rows := delete i (rows db); next_id := next_id db; available := true |},
     jsonify [(lit "success", JBool true); (lit "delete", JNum i)] 200).
Proof.
  intros Hav Hauth Hrow.
  unfold app, dispatch, request, delete_drink. cbn [path method].
  open_gate Hauth.
  erewrite bind_return by (by apply query_get_available).
  rewrite Hrow. cbn.
  erewrite bind_return by (by apply delete_available).
  reflexivity.
Qed.

Lemma delete_gone (db : Database) (i : Z) (a : option Token) (b : Body) :
  available db = true ->
  authorized a (lit "delete:drinks") = true ->
  rows db !! i = None ->
  app (request DELETE (drinks_id_url i) a b) db = (db, not_found).
Proof.
  intros Hav Hauth Hrow.
  unfold app, dispatch, request, delete_drink. cbn [path method].
  open_gate Hauth.
  erewrite bind_return by (by apply query_get_available).
  by rewrite Hrow.
Qed.

(** X14: DELETE is not repeatable: after a successful DELETE of a drink,
    the same request is answered 404 and changes nothing, and a PATCH of
    that id is answered 404 as well. *)
Theorem delete_twice (db : Database) (i : Z) (a : option Token) (b b' : Body)
    (t : json) (r : pystr) :
  available db = true ->
  authorized a (lit "delete:drinks") = true ->
  rows db !! i = Some (t, r) ->
  let db1 := (app (request DELETE (drinks_id_url i) a b) db).1 in
  app (request DELETE (drinks_id_url i) a b) db1 = (db1, not_found)
  /\ (authorized a (lit "patch:drinks") = true ->
      app (request PATCH (drinks_id_url i) a b') db1 = (db1, not_found)).
Proof.
  intros Hav Hauth Hrow db1. subst db1.
  rewrite (delete_run db i a b t r Hav Hauth Hrow). cbn [fst]. split.
  - apply delete_gone; [done | done | apply lookup_delete_eq].
  - intros Hpatch.
    unfold app, dispatch, request, update_drink. cbn [path method].
    open_gate Hpatch.
    erewrite bind_return by (by apply query_get_available).
    cbn [rows]. by rewrite lookup_delete_eq.
Qed.

Lemma delete_twice_witness :
  let db1 := (app (request DELETE (drinks_id_url 1) (Some manager) malformed_body)
                sample_db).1 in
  app (request DELETE (drinks_id_url 1) (Some manager) malformed_body) db1
    = (db1, not_found)
  /\ app (request PATCH (drinks_id_url 1) (Some manager) (json_body (JObj []))) db1
     = (db1, not_found).
Proof.
  destruct (delete_twice sample_db 1 (Some manager) malformed_body (json_body (JObj []))
              (JStr (lit "Water")) (dumps water_recipe) eq_refl eq_refl eq_refl)
    as [Hdel Hpatch].
  split; [exact Hdel | apply Hpatch; reflexivity].
Defined.

(** ** The listing after a change *)

Lemma listing_members (db : Database) (d : Drink) :
  d ∈ merge_sort id_le (to_drink <$> map_to_list (rows db))
  <-> rows db !! id d = Some (title d, recipe d).
Proof. apply (query_all_sorted db). Qed.

(** X15: after a successful DELETE of drink [i] the list operation of the
    two read routes returns exactly the drinks it returned before, except
    the one with id [i]. *)
Theorem deleted_drink_is_unlisted (db : Database) (i : Z) (a : option Token)
    (b : Body) (t : json) (r : pystr) :
  available db = true ->
  authorized a (lit "delete:drinks") = true ->
  rows db !! i = Some (t, r) ->
  exists before after,
    Drink_query_order_by_id_all db = (db, Return before)
    /\ Drink_query_order_by_id_all (app (request DELETE (drinks_id_url i) a b) db).1
       = ((app (request DELETE (drinks_id_url i) a b) db).1, Return after)
    /\ forall d, d ∈ after <-> d ∈ before /\ id d <> i.
Proof.
  intros Hav Hauth Hrow.
  rewrite (delete_run db i a b t r Hav Hauth Hrow). cbn [fst].
  eexists _, _. split; [by apply query_all_available|].
  split; [by apply query_all_available|].
  intros d. rewrite !listing_members. cbn [rows].
  destruct (decide (id d = i)) as [Heq|Hne].
  - rewrite Heq, lookup_delete_eq. split; [done | by intros [_ ?]].
  - rewrite lookup_delete_ne by done. split; [done | by intros [? _]].
Qed.

Lemma deleted_drink_is_unlisted_witness :
  exists before after,
    Drink_query_order_by_id_all sample_db = (sample_db, Return before)
    /\ Drink_query_order_by_id_all
         (app (request DELETE (drinks_id_url 1) (Some manager) malformed_body)
            sample_db).1
       = ((app (request DELETE (drinks_id_url 1) (Some manager) malformed_body)
             sample_db).1, Return after)
    /\ forall d, d ∈ after <-> d ∈ before /\ id d <> 1.
Proof.
  apply (deleted_drink_is_unlisted sample_db 1 (Some manager) malformed_body
           (JStr (lit "Water")) (dumps water_recipe)); reflexivity.
Defined.

(** X16: after a successful POST the list operation returns the new
    drink, with the title and the serialized recipe of the request, next
    to every drink it returned before under another id. *)
Theorem posted_drink_is_listed (db : Database) (a : option Token)
    (kvs : list (pystr * json)) (t r : json) :
  available db = true ->
  authorized a (lit "post:drinks") = true ->
  dict_get (lit "title") kvs = Some t ->
  dict_get (lit "recipe") kvs = Some r ->
  title_missing t = false ->
  wf_json r = true ->
  exists before after,
    Drink_query_order_by_id_all db = (db, Return before)
    /\ Drink_query_order_by_id_all
         (app (request POST drinks_url a (json_body (JObj kvs))) db).1
       = ((app (request POST drinks_url a (json_body (JObj kvs))) db).1, Return after)
    /\ {| id := next_id db; title := t; recipe := dumps r |} ∈ after
    /\ forall d, id d <> next_id db -> (d ∈ after <-> d ∈ before).
Proof.
  intros Hav Hauth Ht Hr Htitle Hwf.
  rewrite (post_run db a kvs t r Hav Hauth Ht Hr Htitle Hwf).
  cbn [fst].
  eexists _, _. split; [by apply query_all_available|].
  split; [by apply query_all_available|].
  split.
  - apply listing_members. cbn. apply lookup_insert_eq.
  - intros d Hd. rewrite !listing_members. cbn [rows].
    by rewrite lookup_insert_ne.
Qed.

Lemma posted_drink_is_listed_witness :
  exists before after,
    Drink_query_order_by_id_all sample_db = (sample_db, Return before)
    /\ Drink_query_order_by_id_all
         (app (request POST drinks_url (Some manager)
                 (json_body (JObj [(lit "title", JStr (lit "Tea"));
                                   (lit "recipe", JArr [])]))) sample_db).1
       = ((app (request POST drinks_url (Some manager)
                  (json_body (JObj [(lit "title", JStr (lit "Tea"));
                                    (lit "recipe", JArr [])]))) sample_db).1,
          Return after)
    /\ {| id := 3; title := JStr (lit "Tea"); recipe := dumps (JArr []) |} ∈ after
    /\ forall d, id d <> 3 -> (d ∈ after <-> d ∈ before).
Proof.
  apply (posted_drink_is_listed sample_db (Some manager)
           [(lit "title", JStr (lit "Tea")); (lit "recipe", JArr [])]
           (JStr (lit "Tea")) (JArr [])); reflexivity.
Defined.

(** ** The text [json.dumps] stores *)

Lemma json_induction (P : json -> Prop) :
  P JNull -> (forall b, P (JBool b)) -> (forall n, P (JNum n)) ->
  (forall s, P (JStr s)) ->
  (forall l, Forall P l -> P (JArr l)) ->
  (forall kvs, Forall (fun kv => P kv.2) kvs -> P (JObj kvs)) ->
  forall v, P v.
Proof.
  intros Hnull Hbool Hnum Hstr Harr Hobj.
  fix IH 1.
  intros [|b|n|s|l|kvs];
    [apply Hnull | apply Hbool | apply Hnum | apply Hstr | |].
  - apply Harr. induction l as [|x l IHl]; constructor; [apply IH | exact IHl].
  - apply Hobj. induction kvs as [|[k x] kvs IHk]; constructor; [apply IH | exact IHk].
Qed.

Section Text.
Local Open Scope N_scope.

Ltac dlia := zify; Z.to_euclidean_division_equations; lia.

Lemma printable_range (c : N) : printable c = true <-> 32 <= c /\ c <= 126.
Proof. unfold printable. rewrite andb_true_iff, !N.leb_le. done. Qed.

Lemma hex_digit_printable (d : N) : d < 16 -> printable (hex_digit d) = true.
Proof.
  intros H. apply printable_range. unfold hex_digit.
  destruct (N.ltb_spec d 10); lia.
Qed.

Lemma hex4_printable (n : N) : Forall (fun c => printable c = true) (hex4 n).
Proof.
  unfold hex4. repeat constructor; apply hex_digit_printable; dlia.
Qed.

Lemma escape_char_printable (c : N) :
  Forall (fun c => printable c = true) (escape_char c).
Proof.
  unfold escape_char.
  repeat match goal with
         | |- context [N.eqb c ?k] =>
             destruct (N.eqb_spec c k) as [->|?]; [by repeat constructor|]
         end.
  destruct ((32 <=? c) && (c <=? 126)) eqn:Hp.
  { constructor; [exact Hp | constructor]. }
  destruct (c <? 65536).
  - do 2 (constructor; [done|]). apply hex4_printable.
  - apply Forall_app.
    split; do 2 (constructor; [done|]); apply hex4_printable.
Qed.

Lemma escape_printable (s : pystr) : Forall (fun c => printable c = true) (escape s).
Proof.
  induction s as [|c s IH]; [constructor|].
  rewrite escape_cons. apply Forall_app. split; [apply escape_char_printable | done].
Qed.

Lemma encode_str_printable (s : pystr) :
  Forall (fun c => printable c = true) (encode_str s).
Proof.
  unfold encode_str. constructor; [done|].
  apply Forall_app. split; [apply escape_printable | by constructor].
Qed.

Lemma digit_printable (c : N) : is_digit c = true -> printable c = true.
Proof.
  unfold is_digit. rewrite andb_true_iff, !N.leb_le. intros [H1 H2].
  apply printable_range. lia.
Qed.

Lemma str_of_Z_printable (z : Z) : Forall (fun c => printable c = true) (str_of_Z z).
Proof.
  destruct z as [|p|p]; cbn [str_of_Z]; [by constructor| |].
  - destruct (str_of_N_spec p) as (d & ds & -> & Hd & Hds & _).
    constructor; [by apply digit_printable|].
    eapply Forall_impl; [exact Hds|]. apply digit_printable.
  - destruct (str_of_N_spec p) as (d & ds & -> & Hd & Hds & _).
    constructor; [done|]. constructor; [by apply digit_printable|].
    eapply Forall_impl; [exact Hds|]. apply digit_printable.
Qed.

Lemma join_comma_printable (parts : list pystr) :
  Forall (Forall (fun c => printable c = true)) parts ->
  Forall (fun c => printable c = true) (join_comma parts).
Proof.
  induction 1 as [|p parts Hp Hparts IH]; [constructor|].
  rewrite join_comma_cons. apply Forall_app. split; [done|].
  destruct parts; [constructor|]. do 2 (constructor; [done|]). exact IH.
Qed.

(** The text [json.dumps] writes is printable ASCII throughout. *)
Lemma dumps_printable (v : json) : Forall (fun c => printable c = true) (dumps v).
Proof.
  induction v as [|[|]|n|s|l IH|kvs IH] using json_induction.
  - vm_compute. by repeat constructor.
  - vm_compute. by repeat constructor.
  - vm_compute. by repeat constructor.
  - apply str_of_Z_printable.
  - apply encode_str_printable.
  - rewrite dumps_array. constructor; [done|].
    apply Forall_app. split; [|by constructor].
    apply join_comma_printable. by apply Forall_fmap.
  - rewrite dumps_object. constructor; [done|].
    apply Forall_app. split; [|by constructor].
    apply join_comma_printable. apply Forall_fmap.
    eapply Forall_impl; [exact IH|]. intros [k x] Hx. cbn [snd] in Hx.
    unfold compose, member_text. cbn [fst snd]. apply Forall_app.
    split; [apply encode_str_printable|]. do 2 (constructor; [done|]). exact Hx.
Qed.

End Text.

(** X17: [json.loads(json.dumps(v))] is [v] for every JSON value, not
    only for recipes, and therefore different values are never stored as
    the same text. *)
Theorem any_value_round_trip (v : json) :
  wf_json v = true ->
  loads (dumps v) = Some v
  /\ (forall v', wf_json v' = true -> dumps v' = dumps v -> v' = v).
Proof.
  intros Hwf. split; [by apply loads_dumps|].
  intros v' Hwf' Heq.
  pose proof (loads_dumps v' Hwf') as H'. rewrite Heq, (loads_dumps v Hwf) in H'.
  congruence.
Qed.

Lemma any_value_round_trip_witness :
  loads (dumps (JObj [(lit "a", JArr [JNull; JNum (-7); JStr [233; 128512]%N])]))
  = Some (JObj [(lit "a", JArr [JNull; JNum (-7); JStr [233; 128512]%N])])
  /\ (forall v', wf_json v' = true ->
      dumps v' = dumps (JObj [(lit "a", JArr [JNull; JNum (-7); JStr [233; 128512]%N])]) ->
      v' = JObj [(lit "a", JArr [JNull; JNum (-7); JStr [233; 128512]%N])]).
Proof.
  apply (any_value_round_trip
           (JObj [(lit "a", JArr [JNull; JNum (-7); JStr [233; 128512]%N])])).
  reflexivity.
Defined.

(** X18: the text [json.dumps] hands to the table consists of printable
    ASCII characters only, whatever characters the value contains. *)
Theorem stored_text_is_ascii (v : json) :
  Forall (fun c => (32 <= c)%N /\ (c <= 126)%N) (dumps v).
Proof.
  eapply Forall_impl; [apply dumps_printable|].
  intros c Hc. by apply printable_range.
Qed.



